(** * Tic Tac Toe backend: the game engine of [src/api/main.py]

    A shallow embedding of the FastAPI handlers [create_game], [get_game],
    [make_move] and [reset_game], of the helpers [_calculate_winner],
    [_is_draw] and [_require_game], and of the pydantic request models, with
    the in-memory dictionary [GAMES] threaded through as explicit state. *)

From stdpp Require Import gmap strings list fin_maps.
From Stdlib Require Import ZArith Lia.

Local Open Scope Z_scope.

(** ** Data model *)

(** [PLAYER = Literal["X", "O"]]. *)
Inductive PLAYER : Type := PX | PO.

#[global] Instance PLAYER_eq_dec : EqDecision PLAYER.
Proof. solve_decision. Defined.

(** The string a mark stands for, used by the f-string of [make_move]. *)
Definition player_str (p : PLAYER) : string :=
  match p with PX => "X" | PO => "O" end.

(** A board cell, [Optional[PLAYER]]. *)
Abbreviation cell := (option PLAYER).

(** Python truthiness of a cell: [None] is falsy, the non-empty strings
    ["X"] and ["O"] are truthy. *)
Definition truthy (c : cell) : bool :=
  match c with Some _ => true | None => false end.

(** The test [c is not None]; on cells it agrees with truthiness. *)
Definition is_not_None (c : cell) : bool :=
  match c with Some _ => true | None => false end.

(** [class CreateGameRequest(BaseModel)]. *)
Record CreateGameRequest : Type := mkCreateGameRequest {
  first_player : PLAYER
}.

(** The field default [Field("X", ...)], used when the body omits it. *)
Definition CreateGameRequest_default : CreateGameRequest :=
  {| first_player := PX |}.

(** [class GameState(BaseModel)]. *)
Record GameState : Type := mkGameState {
  game_id : string;
  board : list cell;
  current_player : PLAYER;
  winner : cell;
  is_draw : bool;
  moves_count : Z
}.

(** [class MoveRequest(BaseModel)]: a body that passed validation. *)
Record MoveRequest : Type := mkMoveRequest {
  position : Z;
  player : PLAYER
}.

(** Attribute assignments [game.f = v] on the handler's local object. *)
Definition set_board (v : list cell) (g : GameState) : GameState :=
  mkGameState (game_id g) v (current_player g) (winner g) (is_draw g) (moves_count g).
Definition set_current_player (v : PLAYER) (g : GameState) : GameState :=
  mkGameState (game_id g) (board g) v (winner g) (is_draw g) (moves_count g).
Definition set_winner (v : cell) (g : GameState) : GameState :=
  mkGameState (game_id g) (board g) (current_player g) v (is_draw g) (moves_count g).
Definition set_is_draw (v : bool) (g : GameState) : GameState :=
  mkGameState (game_id g) (board g) (current_player g) (winner g) v (moves_count g).
Definition set_moves_count (v : Z) (g : GameState) : GameState :=
  mkGameState (game_id g) (board g) (current_player g) (winner g) (is_draw g) v.

(** ** Exceptions *)

(** What a request can end in instead of a response body.
    - [HTTPException] is raised by the handlers themselves, with the status
      code and detail they give;
    - [RequestValidationError] is the rejection of a request body by its
      pydantic model, before the handler is called;
    - [ValidationError] is a [GameState] constructor refusing its fields
      (the [validate_board_len] validator);
    - [IndexError] is a list subscript out of range. *)
Inductive Exception : Type :=
| HTTPException (status_code : Z) (detail : string)
| RequestValidationError
| ValidationError
| IndexError.

#[global] Instance Exception_eq_dec : EqDecision Exception.
Proof. solve_decision. Defined.

(** The status the client sees.  No exception handler is registered on
    [app], so the framework defaults apply: an [HTTPException] answers with
    its own code, a rejected body with 422, anything else escaping a handler
    with 500. *)
Definition response_status (e : Exception) : Z :=
  match e with
  | HTTPException code _ => code
  | RequestValidationError => 422
  | ValidationError => 500
  | IndexError => 500
  end.

(** ** Pure computations that may raise *)

Definition result (A : Type) : Type := (Exception + A)%type.

Definition Ok {A} (a : A) : result A := inr a.
Definition Raise {A} (e : Exception) : result A := inl e.

Definition rbind {A B} (c : result A) (k : A -> result B) : result B :=
  match c with
  | inl e => inl e
  | inr a => k a
  end.

Notation "'let?' x ':=' c 'in' k" := (rbind c (fun x => k))
  (at level 10, x name, c at level 100, k at level 200).

(** Python list subscripts: [l[i]] accepts [0 <= i < len(l)] and the
    negative aliases [-len(l) <= i < 0]; anything else raises. *)
Definition py_index {A} (l : list A) (i : Z) : option nat :=
  let n := Z.of_nat (length l) in
  if decide (0 <= i < n) then Some (Z.to_nat i)
  else if decide (- n <= i < 0) then Some (Z.to_nat (n + i))
  else None.

Definition getitem {A} (l : list A) (i : Z) : result A :=
  match py_index l i with
  | Some k => match l !! k with Some x => Ok x | None => Raise IndexError end
  | None => Raise IndexError
  end.

Definition setitem {A} (l : list A) (i : Z) (x : A) : result (list A) :=
  match py_index l i with
  | Some k => Ok (<[k := x]> l)
  | None => Raise IndexError
  end.

(** ** Win and draw detection *)

Definition win_lines : list (Z * Z * Z) :=
  [ (0, 1, 2);
    (3, 4, 5);
    (6, 7, 8);
    (0, 3, 6);
    (1, 4, 7);
    (2, 5, 8);
    (0, 4, 8);
    (2, 4, 6) ].

(** The loop condition
    [board[a] and board[a] == board[b] and board[b] == board[c]],
    with its short-circuit order of subscripts. *)
Definition line_test (board : list cell) (ln : Z * Z * Z) : result bool :=
  let '(a, b, c) := ln in
  let? x := getitem board a in
  if negb (truthy x) then Ok false else
  let? x1 := getitem board a in
  let? y := getitem board b in
  if negb (bool_decide (x1 = y)) then Ok false else
  let? y1 := getitem board b in
  let? z := getitem board c in
  Ok (bool_decide (y1 = z)).

(** [for a, b, c in lines: if ...: return board[a]], then [return None]. *)
Fixpoint scan_lines (lines : list (Z * Z * Z)) (board : list cell)
  : result cell :=
  match lines with
  | [] => Ok None
  | ln :: rest =>
      let? hit := line_test board ln in
      if hit then getitem board (ln.1.1) else scan_lines rest board
  end.

Definition _calculate_winner (board : list cell) : result cell :=
  scan_lines win_lines board.

(** [all(cell is not None for cell in board)]. *)
Definition _is_draw (board : list cell) : bool :=
  forallb is_not_None board.

(** ** Handlers: state and exceptions *)

(** The module-level dictionary [GAMES].  A stored value is the [.dict()] of
    a [GameState]: it always has the six keys, so it is never the empty
    dictionary. *)
Abbreviation Games := (gmap string GameState).

Definition Handler (A : Type) : Type := Games -> result A * Games.

Definition hret {A} (a : A) : Handler A := fun G => (inr a, G).
Definition hraise {A} (e : Exception) : Handler A := fun G => (inl e, G).
Definition hbind {A B} (c : Handler A) (k : A -> Handler B) : Handler B :=
  fun G => match c G with
           | (inl e, G') => (inl e, G')
           | (inr a, G') => k a G'
           end.
Definition hlift {A} (c : result A) : Handler A := fun G => (c, G).
Definition games_get (gid : string) : Handler (option GameState) :=
  fun G => (inr (G !! gid), G).
Definition games_set (gid : string) (g : GameState) : Handler unit :=
  fun G => (inr tt, <[gid := g]> G).

Notation "'let!' x ':=' c 'in' k" := (hbind c (fun x => k))
  (at level 10, x name, c at level 100, k at level 200).
Notation "c ';;' k" := (hbind c (fun _ => k))
  (at level 100, k at level 200, right associativity).

(** The [@validator("board")] of [GameState], run by its constructor. *)
Definition validate_board_len (v : list cell) : result (list cell) :=
  if decide (length v ≠ 9%nat) then Raise ValidationError else Ok v.

(** Rebuilding a [GameState] from a stored dictionary: only the board
    validator can refuse, the other fields are already of their types. *)
Definition GameState_validate (data : GameState) : result GameState :=
  let? v := validate_board_len (board data) in
  Ok (set_board v data).

(** [_require_game]: fetch the game or raise 404. *)
Definition _require_game (gid : string) : Handler GameState :=
  let! data := games_get gid in
  match data with
  | None => hraise (HTTPException 404 "Game not found")
  | Some d => hlift (GameState_validate d)
  end.

(** [create_game]; [new_id] is the value of [uuid.uuid4().hex]. *)
Definition create_game (new_id : string) (body : CreateGameRequest)
  : Handler GameState :=
  let! initial := hlift (GameState_validate
    {| game_id := new_id;
       board := replicate 9 None;
       current_player := first_player body;
       winner := None;
       is_draw := false;
       moves_count := 0 |}) in
  games_set new_id initial ;;
  hret initial.

(** [get_game]. *)
Definition get_game (gid : string) : Handler GameState :=
  _require_game gid.

(** ["O" if game.current_player == "X" else "X"]. *)
Definition other_player (p : PLAYER) : PLAYER :=
  if decide (p = PX) then PO else PX.

(** [make_move]. *)
Definition make_move (body : MoveRequest) (gid : string) : Handler GameState :=
  let! game := _require_game gid in
  if truthy (winner game) || is_draw game then
    hraise (HTTPException 409 "Game has already finished")
  else if negb (bool_decide (player body = current_player game)) then
    hraise (HTTPException 400
              ("It is not " +:+ player_str (player body) +:+ "'s turn"))
  else
    let pos := position body in
    let! c := hlift (getitem (board game) pos) in
    if is_not_None c then
      hraise (HTTPException 400 "Cell already occupied")
    else
      let! b := hlift (setitem (board game) pos (Some (player body))) in
      let game := set_board b game in
      let game := set_moves_count (moves_count game + 1) game in
      let! w := hlift (_calculate_winner (board game)) in
      let game :=
        if truthy w then
          set_is_draw false (set_winner w game)
        else
          let game := set_is_draw (_is_draw (board game)) game in
          if negb (is_draw game) then
            set_current_player (other_player (current_player game)) game
          else game in
      games_set gid game ;;
      hret game.

(** [reset_game]. *)
Definition reset_game (gid : string) : Handler GameState :=
  let! game := _require_game gid in
  let game := set_board (replicate 9 None) game in
  let game := set_current_player PX game in
  let game := set_winner None game in
  let game := set_is_draw false game in
  let game := set_moves_count 0 game in
  games_set gid game ;;
  hret game.

(** ** The transport boundary *)

(** The JSON body of a move request before validation: an integer and a
    mark.  [MoveRequest] constrains [position] with [ge=0, le=8]. *)
Definition MoveRequest_validate (pos : Z) (p : PLAYER) : result MoveRequest :=
  if decide (0 <= pos) then
    if decide (pos <= 8) then Ok {| position := pos; player := p |}
    else Raise RequestValidationError
  else Raise RequestValidationError.

(** [POST /games/{game_id}/move]: the body is validated, then the handler
    runs. *)
Definition post_move (gid : string) (pos : Z) (p : PLAYER)
  : Handler GameState :=
  let! body := hlift (MoveRequest_validate pos p) in
  make_move body gid.

(** ** Request sequences *)

Inductive Request : Type :=
| ReqCreate (new_id : string) (body : CreateGameRequest)
| ReqGet (gid : string)
| ReqMove (gid : string) (pos : Z) (p : PLAYER)
| ReqReset (gid : string).

Definition serve (r : Request) : Handler GameState :=
  match r with
  | ReqCreate new_id body => create_game new_id body
  | ReqGet gid => get_game gid
  | ReqMove gid pos p => post_move gid pos p
  | ReqReset gid => reset_game gid
  end.

(** The dictionary after serving the requests in order; a failed request
    answers with its error and the service goes on. *)
Fixpoint run (rs : list Request) (G : Games) : Games :=
  match rs with
  | [] => G
  | r :: rest => run rest (serve r G).2
  end.

(** The responses of the requests, in order. *)
Fixpoint responses (rs : list Request) (G : Games) : list (result GameState) :=
  match rs with
  | [] => []
  | r :: rest => (serve r G).1 :: responses rest (serve r G).2
  end.

(** A successful response. *)
Definition accepted {A} (r : result A) : bool :=
  match r with inr _ => true | inl _ => false end.

(** ** Request sequences used as examples *)

Definition new_game_X : Request := ReqCreate "g" {| first_player := PX |}.

(** X opens in the corner. *)
Definition scenario_opening : list Request :=
  [ new_game_X; ReqMove "g" 0 PX ].

(** X:0, O:3, X:1, O:4: X is one move from the top row. *)
Definition scenario_before_win : list Request :=
  [ new_game_X; ReqMove "g" 0 PX; ReqMove "g" 3 PO; ReqMove "g" 1 PX;
    ReqMove "g" 4 PO ].

(** ... and X:2 completes the top row. *)
Definition scenario_win : list Request :=
  scenario_before_win ++ [ ReqMove "g" 2 PX ].

(** X:0, O:1, X:2, O:3, X:4, O:5, X:7, O:6, X:8. *)
Definition scenario_nine_moves : list Request :=
  [ new_game_X;
    ReqMove "g" 0 PX; ReqMove "g" 1 PO; ReqMove "g" 2 PX;
    ReqMove "g" 3 PO; ReqMove "g" 4 PX; ReqMove "g" 5 PO;
    ReqMove "g" 7 PX; ReqMove "g" 6 PO; ReqMove "g" 8 PX ].

(** X:0, O:1, X:2, O:4, X:3, O:5, X:7, O:6, X:8: a full board, no line. *)
Definition scenario_full_board : list Request :=
  [ new_game_X;
    ReqMove "g" 0 PX; ReqMove "g" 1 PO; ReqMove "g" 2 PX;
    ReqMove "g" 4 PO; ReqMove "g" 3 PX; ReqMove "g" 5 PO;
    ReqMove "g" 7 PX; ReqMove "g" 6 PO; ReqMove "g" 8 PX ].

(** The stored game after [scenario_opening]. *)
Definition game_opened : GameState :=
  mkGameState "g"
    [Some PX; None; None; None; None; None; None; None; None]
    PO None false 1.

(** The stored game after [scenario_win]. *)
Definition game_won : GameState :=
  mkGameState "g"
    [Some PX; Some PX; Some PX; Some PO; Some PO; None; None; None; None]
    PX (Some PX) false 5.

(** The stored game after [scenario_full_board]. *)
Definition game_drawn : GameState :=
  mkGameState "g"
    [Some PX; Some PO; Some PX; Some PX; Some PO; Some PO; Some PO; Some PX;
     Some PX]
    PX None true 9.

(** A second game, "h", opened by O, beside the opened game "g". *)
Definition scenario_two_games : list Request :=
  ReqCreate "h" {| first_player := PO |} :: ReqMove "h" 4 PO
  :: scenario_opening.

(** The stored game "h" of [scenario_two_games]. *)
Definition game_h : GameState :=
  mkGameState "h"
    [None; None; None; None; Some PO; None; None; None; None]
    PX None false 1.

(** A record whose board has lost its cells, as no handler stores it. *)
Definition game_malformed : GameState :=
  mkGameState "bad" [None; None; None] PX None false 0.

(** ** Predicates the properties are stated with *)

(** The number of non-empty cells. *)
Definition count_marks (b : list cell) : Z :=
  Z.of_nat (length (filter (λ c : cell, truthy c = true) b)).

(** All three cells of a line hold the mark [m]. *)
Definition line_all (b : list cell) (ln : Z * Z * Z) (m : PLAYER) : Prop :=
  b !! Z.to_nat ln.1.1 = Some (Some m) ∧
  b !! Z.to_nat ln.1.2 = Some (Some m) ∧
  b !! Z.to_nat ln.2 = Some (Some m).

(** Some winning line is non-empty and uniform. *)
Definition has_line (b : list cell) : Prop :=
  ∃ ln m, ln ∈ win_lines ∧ line_all b ln m.

(** A game that accepts no further move. *)
Definition terminal (g : GameState) : bool :=
  truthy (winner g) || is_draw g.

(** The indices of a line are subscripts of a nine-cell board. *)
Definition line_in_range (ln : Z * Z * Z) : Prop :=
  0 <= ln.1.1 < 9 ∧ 0 <= ln.1.2 < 9 ∧ 0 <= ln.2 < 9.

(** What every stored game satisfies: nine cells, a move counter that counts
    the marks, a [winner] field that agrees with the board, and a draw flag
    that is raised exactly on a full board without winner. *)
Record game_ok (g : GameState) : Prop := mk_game_ok {
  ok_len : length (board g) = 9%nat;
  ok_count : moves_count g = count_marks (board g);
  ok_winner : _calculate_winner (board g) = Ok (winner g);
  ok_draw : is_draw g = negb (truthy (winner g)) && _is_draw (board g)
}.

Definition games_ok (G : Games) : Prop :=
  ∀ gid g, G !! gid = Some g → game_ok g.

(** The identifier a request addresses. *)
Definition request_target (r : Request) : string :=
  match r with
  | ReqCreate new_id _ => new_id
  | ReqGet gid => gid
  | ReqMove gid _ _ => gid
  | ReqReset gid => gid
  end.

(** The requests that give [gid] a fresh board: a reset of it, or a create
    whose drawn identifier is [gid]. *)
Definition restarts (gid : string) (r : Request) : bool :=
  match r with
  | ReqCreate new_id _ => bool_decide (new_id = gid)
  | ReqReset id => bool_decide (id = gid)
  | ReqGet _ => false
  | ReqMove _ _ _ => false
  end.

(** The number of cells holding the mark [p]. *)
Definition count_mark (p : PLAYER) (b : list cell) : Z :=
  Z.of_nat (length (filter (λ c : cell, c = Some p) b)).

(** The failures a client can cause: the three codes the handlers raise and
    the refusal of a request body. *)
Definition client_error (e : Exception) : bool :=
  match e with
  | HTTPException code _ =>
      bool_decide (code = 400) || bool_decide (code = 404)
      || bool_decide (code = 409)
  | RequestValidationError => true
  | ValidationError => false
  | IndexError => false
  end.

(** Unfolding one step of a handler. *)
Ltac run_handler :=
  unfold hbind, hraise, hret, hlift, games_set; simpl.

(** ** Subscripts *)

Lemma is_not_None_truthy (c : cell) : is_not_None c = truthy c.
Proof. destruct c; reflexivity. Qed.


Lemma py_index_in_range {A} (l : list A) (i : Z) :
  0 <= i < Z.of_nat (length l) → py_index l i = Some (Z.to_nat i).
Proof.
  intros Hi. unfold py_index. cbv zeta.
  destruct (decide (0 <= i < Z.of_nat (length l))) as [_|Hn]; [reflexivity | lia].
Qed.

Lemma py_index_lt {A} (l : list A) (i : Z) (k : nat) :
  py_index l i = Some k → (k < length l)%nat.
Proof.
  unfold py_index. cbv zeta. intros H.
  destruct (decide (0 <= i < Z.of_nat (length l))).
  - inversion H; subst. lia.
  - destruct (decide (- Z.of_nat (length l) <= i < 0)); [|discriminate].
    inversion H; subst. lia.
Qed.

Lemma getitem_in_range {A} (l : list A) (i : Z) :
  0 <= i < Z.of_nat (length l) →
  ∃ x, l !! Z.to_nat i = Some x ∧ getitem l i = Ok x.
Proof.
  intros Hi. unfold getitem. rewrite py_index_in_range by exact Hi.
  destruct (lookup_lt_is_Some_2 l (Z.to_nat i)) as [x Hx]; [lia|].
  exists x. rewrite Hx. split; reflexivity.
Qed.

Lemma getitem_Ok {A} (l : list A) (i : Z) (x : A) :
  getitem l i = Ok x → ∃ k, py_index l i = Some k ∧ l !! k = Some x.
Proof.
  unfold getitem. destruct (py_index l i) as [k|]; [|discriminate].
  destruct (l !! k) as [y|] eqn:Hy; [|discriminate].
  intros H. inversion H; subst. eauto.
Qed.

Lemma setitem_total {A} (l : list A) (i : Z) (k : nat) (x : A) :
  py_index l i = Some k → setitem l i x = Ok (<[k := x]> l).
Proof. intros H. unfold setitem. rewrite H. reflexivity. Qed.

(** ** [_calculate_winner] *)

Lemma win_lines_in_range : Forall line_in_range win_lines.
Proof. unfold win_lines, line_in_range. repeat constructor; simpl; lia. Qed.

Lemma line_test_spec (b : list cell) (ln : Z * Z * Z) :
  length b = 9%nat → line_in_range ln →
  ∃ hit, line_test b ln = Ok hit ∧ (hit = true ↔ ∃ m, line_all b ln m).
Proof.
  intros Hlen Hr. destruct ln as [[i j] k]. destruct Hr as (Hi & Hj & Hk).
  simpl in Hi, Hj, Hk.
  destruct (getitem_in_range b i) as (x & Hx & Gx); [lia|].
  destruct (getitem_in_range b j) as (y & Hy & Gy); [lia|].
  destruct (getitem_in_range b k) as (z & Hz & Gz); [lia|].
  unfold line_test, line_all. simpl. rewrite Gx. simpl.
  destruct x as [m|]; simpl.
  - rewrite Gy. simpl. destruct (decide (Some m = y)) as [<-|Hne].
    + rewrite bool_decide_eq_true_2 by reflexivity. simpl. rewrite Gz. simpl.
      eexists; split; [reflexivity|]. rewrite bool_decide_eq_true. split.
      * intros <-. exists m. auto.
      * intros (m' & H1 & H2 & H3). congruence.
    + rewrite bool_decide_eq_false_2 by exact Hne. simpl.
      eexists; split; [reflexivity|]. split; [discriminate|].
      intros (m' & H1 & H2 & H3). congruence.
  - eexists; split; [reflexivity|]. split; [discriminate|].
    intros (m' & H1 & H2 & H3). congruence.
Qed.

(** The scan returns the mark of the first uniform line, or [None] when no
    line of the list is uniform. *)
Lemma scan_lines_spec (lines : list (Z * Z * Z)) (b : list cell) :
  length b = 9%nat → Forall line_in_range lines →
  ∃ w, scan_lines lines b = Ok w ∧
       (∀ m, w = Some m → ∃ ln, ln ∈ lines ∧ line_all b ln m) ∧
       (w = None → ∀ ln m, ln ∈ lines → ¬ line_all b ln m).
Proof.
  intros Hlen. induction 1 as [|ln rest Hr _ IH].
  - exists None. simpl. split; [reflexivity|]. split; [discriminate|].
    intros _ ln m Hin. inversion Hin.
  - destruct (line_test_spec b ln Hlen Hr) as (hit & Ht & Hhit).
    simpl. rewrite Ht. simpl. destruct hit.
    + destruct (proj1 Hhit eq_refl) as (m & Hm).
      destruct (getitem_in_range b ln.1.1) as (x & Hx & Gx);
        [destruct Hr; lia|].
      rewrite Gx. exists x. split; [reflexivity|].
      destruct Hm as (H1 & _ & _). rewrite H1 in Hx. inversion Hx; subst x.
      split; [|discriminate].
      intros m' Hm'. inversion Hm'; subst m'. exists ln. split; [left|].
      destruct (proj1 Hhit eq_refl) as (m2 & Hm2).
      assert (m2 = m) as -> by (destruct Hm2 as (H2 & _); congruence).
      exact Hm2.
    + destruct IH as (w & Hw & Hsome & Hnone). exists w.
      split; [exact Hw|]. split.
      * intros m Hm. destruct (Hsome m Hm) as (l' & Hin & Hl').
        exists l'. split; [right; exact Hin | exact Hl'].
      * intros Hn l' m Hin Hl'. apply elem_of_cons in Hin as [->|Hin].
        -- assert (false = true) by (apply Hhit; eauto). discriminate.
        -- exact (Hnone Hn l' m Hin Hl').
Qed.

Lemma calculate_winner_spec (b : list cell) :
  length b = 9%nat →
  ∃ w, _calculate_winner b = Ok w ∧
       (∀ m, w = Some m → ∃ ln, ln ∈ win_lines ∧ line_all b ln m) ∧
       (w = None → ¬ has_line b).
Proof.
  intros Hlen.
  destruct (scan_lines_spec win_lines b Hlen win_lines_in_range)
    as (w & Hw & Hsome & Hnone).
  exists w. split; [exact Hw|]. split; [exact Hsome|].
  intros Hn (ln & m & Hin & Hl). exact (Hnone Hn ln m Hin Hl).
Qed.

(** ** The handlers, case by case *)

Lemma set_board_same (g : GameState) : set_board (board g) g = g.
Proof. destruct g; reflexivity. Qed.

Lemma require_game_eq (gid : string) (G : Games) :
  _require_game gid G =
  match G !! gid with
  | None => (inl (HTTPException 404 "Game not found"), G)
  | Some d => if decide (length (board d) = 9%nat) then (inr d, G)
              else (inl ValidationError, G)
  end.
Proof.
  unfold _require_game, hbind, games_get, hraise, hlift.
  destruct (G !! gid) as [d|]; [|reflexivity].
  unfold GameState_validate, validate_board_len.
  destruct (decide (length (board d) ≠ 9%nat)) as [Hne|He];
    destruct (decide (length (board d) = 9%nat)) as [He'|Hne']; simpl;
    rewrite ?set_board_same; try contradiction; reflexivity.
Qed.

(** A rejected move leaves the dictionary as it was. *)
Lemma make_move_rejected body gid (G G' : Games) e :
  make_move body gid G = (inl e, G') → G' = G.
Proof.
  unfold make_move. unfold hbind at 1. rewrite require_game_eq.
  destruct (G !! gid) as [d|]; [|intros H; inversion H; reflexivity].
  destruct (decide (length (board d) = 9%nat));
    [|intros H; inversion H; reflexivity].
  destruct (truthy (winner d) || is_draw d);
    [intros H; inversion H; reflexivity|].
  destruct (negb (bool_decide (player body = current_player d)));
    [intros H; inversion H; reflexivity|].
  run_handler.
  destruct (getitem (board d) (position body)) as [e1|c];
    [intros H; inversion H; reflexivity|].
  destruct (is_not_None c); [intros H; inversion H; reflexivity|].
  destruct (setitem (board d) (position body) (Some (player body))) as [e2|b];
    [intros H; inversion H; reflexivity|].
  destruct (_calculate_winner b) as [e3|w];
    [intros H; inversion H; reflexivity|].
  intros H; inversion H.
Qed.

(** What an accepted move did. *)
Lemma make_move_accepted body gid (G G' : Games) g' :
  make_move body gid G = (inr g', G') →
  ∃ g k w,
    G !! gid = Some g ∧ length (board g) = 9%nat ∧ terminal g = false ∧
    player body = current_player g ∧
    py_index (board g) (position body) = Some k ∧
    board g !! k = Some None ∧
    board g' = <[k := Some (player body)]> (board g) ∧
    _calculate_winner (board g') = Ok w ∧
    game_id g' = game_id g ∧
    moves_count g' = moves_count g + 1 ∧
    winner g' = w ∧
    is_draw g' = negb (truthy w) && _is_draw (board g') ∧
    current_player g' =
      (if truthy w || _is_draw (board g') then current_player g
       else other_player (current_player g)) ∧
    G' = <[gid := g']> G.
Proof.
  unfold make_move. unfold hbind at 1. rewrite require_game_eq.
  destruct (G !! gid) as [d|]; [|discriminate].
  destruct (decide (length (board d) = 9%nat)) as [Hlen|]; [|discriminate].
  destruct (truthy (winner d) || is_draw d) eqn:Hterm; [discriminate|].
  destruct (bool_decide (player body = current_player d)) eqn:Hturn;
    simpl; [|discriminate].
  apply bool_decide_eq_true in Hturn.
  run_handler.
  destruct (getitem (board d) (position body)) as [e1|c] eqn:Hget;
    [discriminate|].
  destruct c as [m|]; simpl; [discriminate|].
  apply getitem_Ok in Hget as (k & Hk & Hcell).
  rewrite (setitem_total _ _ k) by exact Hk. simpl.
  destruct (_calculate_winner (<[k:=Some (player body)]> (board d)))
    as [e3|w] eqn:Hw; [discriminate|].
  intros H. inversion H as [[Hg HG]]. clear H.
  exists d, k, w.
  apply orb_false_iff in Hterm as [Hwin Hdraw].
  assert (winner d = None) as Hwd by (destruct (winner d); [discriminate|reflexivity]).
  destruct w as [m|]; simpl.
  - repeat split; try assumption; try reflexivity.
    unfold terminal. rewrite Hwd, Hdraw. reflexivity.
  - destruct (_is_draw (<[k:=Some (player body)]> (board d))) eqn:Hfull; simpl;
      rewrite ?Hfull; simpl; repeat split; try assumption; try reflexivity;
      unfold terminal; rewrite Hwd, Hdraw; reflexivity.
Qed.

(** The four refusals of [make_move], in the order the handler tests them. *)
Lemma make_move_not_found body gid (G : Games) :
  G !! gid = None →
  make_move body gid G = (inl (HTTPException 404 "Game not found"), G).
Proof.
  intros Hnone. unfold make_move. unfold hbind at 1.
  rewrite require_game_eq, Hnone. reflexivity.
Qed.

Section StoredGame.
(** A nine-cell game [g] stored under [gid]: [_require_game] hands it to
    the handler as it is. *)
Variables (gid : string) (G : Games) (g : GameState).
Hypothesis Hstored : G !! gid = Some g.
Hypothesis Hnine : length (board g) = 9%nat.

Lemma require_game_stored : _require_game gid G = (inr g, G).
Proof.
  rewrite require_game_eq, Hstored.
  destruct (decide (length (board g) = 9%nat)); [reflexivity | contradiction].
Qed.

Lemma make_move_finished body :
  terminal g = true →
  make_move body gid G =
    (inl (HTTPException 409 "Game has already finished"), G).
Proof.
  intros Hterm. unfold make_move. unfold hbind at 1.
  rewrite require_game_stored.
  unfold terminal in Hterm. rewrite Hterm. reflexivity.
Qed.

Lemma make_move_wrong_turn body :
  terminal g = false → player body ≠ current_player g →
  make_move body gid G =
    (inl (HTTPException 400
            ("It is not " +:+ player_str (player body) +:+ "'s turn")), G).
Proof.
  intros Hterm Hturn. unfold make_move. unfold hbind at 1.
  rewrite require_game_stored.
  unfold terminal in Hterm. rewrite Hterm.
  rewrite bool_decide_eq_false_2 by exact Hturn. reflexivity.
Qed.

Lemma make_move_occupied body k m :
  terminal g = false → player body = current_player g →
  py_index (board g) (position body) = Some k →
  board g !! k = Some (Some m) →
  make_move body gid G =
    (inl (HTTPException 400 "Cell already occupied"), G).
Proof.
  intros Hterm Hturn Hk Hcell. unfold make_move. unfold hbind at 1.
  rewrite require_game_stored.
  unfold terminal in Hterm. rewrite Hterm.
  rewrite bool_decide_eq_true_2 by exact Hturn. run_handler.
  unfold getitem. rewrite Hk, Hcell. reflexivity.
Qed.
End StoredGame.

(** The boundary: a position outside [0..8] never reaches the handler, a
    position inside is handed over as it is. *)
Lemma post_move_invalid gid pos p (G : Games) :
  ¬ (0 <= pos <= 8) →
  post_move gid pos p G = (inl RequestValidationError, G).
Proof.
  intros Hpos. unfold post_move, hbind, hlift, MoveRequest_validate.
  destruct (decide (0 <= pos)); [|reflexivity].
  destruct (decide (pos <= 8)); [lia | reflexivity].
Qed.

Lemma post_move_valid gid pos p (G : Games) :
  0 <= pos <= 8 →
  post_move gid pos p G = make_move {| position := pos; player := p |} gid G.
Proof.
  intros Hpos. unfold post_move, hbind, hlift, MoveRequest_validate.
  destruct (decide (0 <= pos)); [|lia].
  destruct (decide (pos <= 8)); [reflexivity | lia].
Qed.

Lemma post_move_rejected gid pos p (G G' : Games) e :
  post_move gid pos p G = (inl e, G') → G' = G.
Proof.
  destruct (decide (0 <= pos <= 8)) as [Hpos|Hpos].
  - rewrite post_move_valid by exact Hpos. apply make_move_rejected.
  - rewrite post_move_invalid by exact Hpos. intros H; inversion H; reflexivity.
Qed.

Lemma post_move_accepted gid pos p (G G' : Games) g' :
  post_move gid pos p G = (inr g', G') →
  0 <= pos <= 8 ∧
  ∃ g w,
    G !! gid = Some g ∧ length (board g) = 9%nat ∧ terminal g = false ∧
    p = current_player g ∧
    board g !! Z.to_nat pos = Some None ∧
    board g' = <[Z.to_nat pos := Some p]> (board g) ∧
    _calculate_winner (board g') = Ok w ∧
    game_id g' = game_id g ∧
    moves_count g' = moves_count g + 1 ∧
    winner g' = w ∧
    is_draw g' = negb (truthy w) && _is_draw (board g') ∧
    current_player g' =
      (if truthy w || _is_draw (board g') then current_player g
       else other_player (current_player g)) ∧
    G' = <[gid := g']> G.
Proof.
  destruct (decide (0 <= pos <= 8)) as [Hpos|Hpos].
  - rewrite post_move_valid by exact Hpos. intros H. split; [exact Hpos|].
    apply make_move_accepted in H
      as (g & k & w & Hg & Hlen & Hterm & Hp & Hk & Hcell & Hrest).
    simpl in Hp, Hk, Hrest.
    rewrite py_index_in_range in Hk by lia. inversion Hk; subst k.
    exists g, w. repeat (split; [assumption|]). exact Hrest.
  - rewrite post_move_invalid by exact Hpos. discriminate.
Qed.

(** [reset_game] and [create_game] in closed form. *)
Lemma reset_game_eq gid (G : Games) :
  reset_game gid G =
  match G !! gid with
  | None => (inl (HTTPException 404 "Game not found"), G)
  | Some d =>
      if decide (length (board d) = 9%nat) then
        let g := mkGameState (game_id d) (replicate 9 None) PX None false 0 in
        (inr g, <[gid := g]> G)
      else (inl ValidationError, G)
  end.
Proof.
  unfold reset_game. unfold hbind at 1. rewrite require_game_eq.
  destruct (G !! gid) as [d|]; [|reflexivity].
  destruct (decide (length (board d) = 9%nat)); reflexivity.
Qed.

Lemma create_game_eq new_id body (G : Games) :
  create_game new_id body G =
  let g := mkGameState new_id (replicate 9 None) (first_player body)
                       None false 0 in
  (inr g, <[new_id := g]> G).
Proof. reflexivity. Qed.

(** ** The invariant of stored games *)

Lemma count_marks_place (b : list cell) (k : nat) (p : PLAYER) :
  b !! k = Some None →
  count_marks (<[k := Some p]> b) = count_marks b + 1.
Proof.
  unfold count_marks. revert k. induction b as [|c b IH]; intros k Hk.
  - discriminate.
  - destruct k as [|k]; simpl in Hk.
    + inversion Hk; subst c. simpl.
      rewrite !filter_cons. simpl.
      destruct (decide (true = true)); [|contradiction].
      destruct (decide (false = true)); [discriminate|]. simpl. lia.
    + simpl. rewrite !filter_cons. specialize (IH k Hk).
      destruct (decide (truthy c = true)); simpl; lia.
Qed.

Lemma count_marks_bounds (b : list cell) :
  0 <= count_marks b <= Z.of_nat (length b).
Proof.
  unfold count_marks.
  pose proof (length_filter (λ c : cell, truthy c = true) b). lia.
Qed.

Lemma is_draw_full (b : list cell) :
  _is_draw b = true ↔ Forall (λ c, c ≠ None) b.
Proof.
  unfold _is_draw. induction b as [|c b IH]; simpl.
  - split; [constructor | reflexivity].
  - rewrite andb_true_iff, IH, Forall_cons. destruct c; simpl; split.
    + intros [_ H]. split; [discriminate | exact H].
    + intros [_ H]. split; [reflexivity | exact H].
    + intros [H _]. discriminate.
    + intros [H _]. contradiction.
Qed.

Lemma fresh_game_ok gid p :
  game_ok (mkGameState gid (replicate 9 None) p None false 0).
Proof. split; reflexivity. Qed.

Lemma post_move_keeps_ok gid pos p (G G' : Games) g' :
  games_ok G → post_move gid pos p G = (inr g', G') → game_ok g'.
Proof.
  intros HG H. apply post_move_accepted in H
    as (Hpos & g & w & Hg & Hlen & Hterm & Hp & Hcell & Hb & Hw & Hid & Hmc &
        Hwin & Hdraw & Hcur & HG').
  split.
  - rewrite Hb, length_insert. exact Hlen.
  - rewrite Hmc, Hb, count_marks_place by exact Hcell.
    rewrite (ok_count g (HG gid g Hg)). reflexivity.
  - rewrite Hwin. exact Hw.
  - rewrite Hwin. exact Hdraw.
Qed.

Lemma games_ok_insert (G : Games) gid g :
  games_ok G → game_ok g → games_ok (<[gid := g]> G).
Proof.
  intros HG Hg k g0. rewrite lookup_insert.
  destruct (decide (gid = k)); [|apply HG].
  intros H. inversion H; subst. exact Hg.
Qed.

(** Every request keeps the invariant, whether it succeeds or fails. *)
Lemma serve_keeps_ok (r : Request) (G : Games) :
  games_ok G → games_ok (serve r G).2.
Proof.
  intros HG. destruct r as [new_id body | gid | gid pos p | gid]; cbn [serve].
  - rewrite create_game_eq. simpl.
    apply games_ok_insert; [exact HG | apply fresh_game_ok].
  - unfold get_game. rewrite require_game_eq.
    destruct (G !! gid) as [d|]; [|exact HG].
    destruct (decide (length (board d) = 9%nat)); exact HG.
  - destruct (post_move gid pos p G) as [[e|g'] G'] eqn:Hm; simpl.
    + apply post_move_rejected in Hm. subst G'. exact HG.
    + pose proof (post_move_keeps_ok _ _ _ _ _ _ HG Hm) as Hok.
      apply post_move_accepted in Hm as (_ & g & w & Hrest).
      destruct Hrest as (_ & _ & _ & _ & _ & _ & _ & _ & _ & _ & _ & _ & ->).
      apply games_ok_insert; assumption.
  - rewrite reset_game_eq. destruct (G !! gid) as [d|]; [|exact HG].
    destruct (decide (length (board d) = 9%nat)); [|exact HG].
    simpl. apply games_ok_insert; [exact HG | apply fresh_game_ok].
Qed.

Lemma run_keeps_ok (rs : list Request) (G : Games) :
  games_ok G → games_ok (run rs G).
Proof.
  revert G. induction rs as [|r rs IH]; intros G HG; simpl.
  - exact HG.
  - apply IH, serve_keeps_ok, HG.
Qed.

Lemma empty_games_ok : games_ok (∅ : Games).
Proof. intros gid g H. rewrite lookup_empty in H. discriminate. Qed.

(** The same for the state each successful request answers with. *)
Lemma serve_response_ok (r : Request) (G G' : Games) g :
  games_ok G → serve r G = (inr g, G') → game_ok g.
Proof.
  intros HG. destruct r as [new_id body | gid | gid pos p | gid]; cbn [serve].
  - rewrite create_game_eq. simpl. intros H. inversion H; subst.
    apply fresh_game_ok.
  - unfold get_game. rewrite require_game_eq.
    destruct (G !! gid) as [d|] eqn:Hd; [|discriminate].
    destruct (decide (length (board d) = 9%nat)); [|discriminate].
    intros H. inversion H; subst. exact (HG gid g Hd).
  - apply post_move_keeps_ok, HG.
  - rewrite reset_game_eq. destruct (G !! gid) as [d|]; [|discriminate].
    destruct (decide (length (board d) = 9%nat)); [|discriminate].
    simpl. intros H. inversion H; subst. apply fresh_game_ok.
Qed.

(** ** Properties of the specification *)

(** C1. After an accepted move the [winner] field is set if and only if one
    of the eight lines of [win_lines] holds three equal marks on the board
    with the new mark placed; a set winner is the mark of such a line, and
    [is_draw] is then false. *)
Theorem winner_set_iff_line gid pos p (G G' : Games) g' :
  post_move gid pos p G = (inr g', G') →
  ∃ g, G !! gid = Some g ∧
       board g' = <[Z.to_nat pos := Some p]> (board g) ∧
       G' !! gid = Some g' ∧
       (is_Some (winner g') ↔ has_line (board g')) ∧
       (∀ m, winner g' = Some m →
             (∃ ln, ln ∈ win_lines ∧ line_all (board g') ln m) ∧
             is_draw g' = false).
Proof.
  intros H. apply post_move_accepted in H
    as (Hpos & g & w & Hg & Hlen & Hterm & Hp & Hcell & Hb & Hw & Hid & Hmc &
        Hwin & Hdraw & Hcur & HG').
  exists g. split; [exact Hg|]. split; [exact Hb|].
  split; [rewrite HG'; apply lookup_insert_eq|].
  assert (length (board g') = 9%nat) as Hlen'
    by (rewrite Hb, length_insert; exact Hlen).
  destruct (calculate_winner_spec (board g') Hlen') as (w' & Hw' & Hsome & Hnone).
  rewrite Hw in Hw'. inversion Hw'; subst w'. clear Hw'.
  rewrite Hwin. split; [split|].
  - intros [m Hm]. destruct (Hsome m Hm) as (ln & Hin & Hl).
    exists ln, m. split; assumption.
  - intros Hline. destruct w as [m|]; [eexists; reflexivity|].
    exfalso. exact (Hnone eq_refl Hline).
  - intros m Hm. split; [exact (Hsome m Hm)|].
    rewrite Hdraw, Hm. reflexivity.
Qed.

(** C2. In every dictionary reached by a sequence of requests, no game has
    both a winner and the draw flag; a game with the draw flag has nine
    non-empty cells, no winner, and no uniform line on its board. *)
Theorem winner_and_draw_exclusive (rs : list Request) gid g :
  run rs ∅ !! gid = Some g →
  ¬ (is_Some (winner g) ∧ is_draw g = true) ∧
  (is_draw g = true →
     length (board g) = 9%nat ∧ Forall (λ c, c ≠ None) (board g) ∧
     winner g = None ∧ ¬ has_line (board g)).
Proof.
  intros Hg.
  destruct (run_keeps_ok rs ∅ empty_games_ok gid g Hg)
    as [Hlen _ Hwin Hdraw].
  assert (is_draw g = true → winner g = None ∧ _is_draw (board g) = true)
    as Hd.
  { rewrite Hdraw. intros H. apply andb_true_iff in H as [H1 H2].
    split; [|exact H2]. destruct (winner g); [discriminate | reflexivity]. }
  split.
  - intros [[m Hm] Ht]. destruct (Hd Ht) as [Hn _]. congruence.
  - intros Ht. destruct (Hd Ht) as [Hn Hfull].
    split; [exact Hlen|]. split; [apply is_draw_full, Hfull|].
    split; [exact Hn|].
    destruct (calculate_winner_spec (board g) Hlen) as (w & Hw & _ & Hnone).
    rewrite Hwin in Hw. inversion Hw; subst w. apply Hnone, Hn.
Qed.

(** C3. In every dictionary reached by a sequence of requests, the
    [moves_count] of a game is the number of non-empty cells of its board,
    hence between 0 and 9. *)
Theorem moves_count_counts_marks (rs : list Request) gid g :
  run rs ∅ !! gid = Some g →
  moves_count g = count_marks (board g) ∧ 0 <= moves_count g <= 9.
Proof.
  intros Hg.
  destruct (run_keeps_ok rs ∅ empty_games_ok gid g Hg) as [Hlen Hcount _ _].
  split; [exact Hcount|].
  pose proof (count_marks_bounds (board g)) as Hb.
  rewrite Hlen in Hb. rewrite Hcount. lia.
Qed.

(** C4. A move request that fails, for whatever reason, leaves the
    dictionary as it was; and on a stored game that is terminal, the handler
    refuses every move with 409 "Game has already finished", changing
    nothing, and so does the endpoint for every position in [0..8]. *)
Theorem failed_move_changes_nothing gid pos p (G : Games) :
  (∀ e G', post_move gid pos p G = (inl e, G') → G' = G) ∧
  (∀ g, G !! gid = Some g → length (board g) = 9%nat → terminal g = true →
     (∀ body, make_move body gid G =
                (inl (HTTPException 409 "Game has already finished"), G)) ∧
     (0 <= pos <= 8 →
        post_move gid pos p G =
          (inl (HTTPException 409 "Game has already finished"), G))).
Proof.
  split.
  - intros e G'. apply post_move_rejected.
  - intros g Hg Hlen Hterm. split.
    + intros body. exact (make_move_finished gid G g Hg Hlen body Hterm).
    + intros Hpos. rewrite post_move_valid by exact Hpos.
      exact (make_move_finished gid G g Hg Hlen _ Hterm).
Qed.

(** C5, as the handler has it.  An accepted move that leaves the game
    running hands the turn to the other mark; an accepted move that ends the
    game (win or draw) leaves [current_player] as it was; a rejected move
    leaves the stored game, and so its [current_player], untouched. *)
Theorem current_player_alternates gid pos p (G : Games) g :
  G !! gid = Some g →
  (∀ g' G', post_move gid pos p G = (inr g', G') →
     G' !! gid = Some g' ∧
     (terminal g' = false →
        current_player g' = other_player (current_player g) ∧
        current_player g' ≠ current_player g) ∧
     (terminal g' = true → current_player g' = current_player g)) ∧
  (∀ e G', post_move gid pos p G = (inl e, G') → G' !! gid = Some g).
Proof.
  intros Hg. split.
  - intros g' G' H. apply post_move_accepted in H
      as (Hpos & g0 & w & Hg0 & Hlen & Hterm & Hp & Hcell & Hb & Hw & Hid &
          Hmc & Hwin & Hdraw & Hcur & HG').
    rewrite Hg in Hg0. inversion Hg0; subst g0. clear Hg0.
    split; [rewrite HG'; apply lookup_insert_eq|].
    unfold terminal. rewrite Hwin, Hdraw, Hcur.
    destruct (truthy w); simpl.
    + split; [discriminate | reflexivity].
    + destruct (_is_draw (board g')); simpl.
      * split; [discriminate | reflexivity].
      * split; [|discriminate]. intros _. split; [reflexivity|].
        unfold other_player. destruct (current_player g); simpl; discriminate.
  - intros e G' H. apply post_move_rejected in H. subst G'. exact Hg.
Qed.

(** C5, as stated, fails: the move that completes the top row is accepted
    and [current_player] stays "X". *)
Lemma winning_move_keeps_current_player :
  ¬ (∀ gid pos p (G G' : Games) g g',
       G !! gid = Some g → post_move gid pos p G = (inr g', G') →
       current_player g' = other_player (current_player g)).
Proof.
  intros H.
  pose (g := mkGameState "g"
          [Some PX; Some PX; None; Some PO; Some PO; None; None; None; None]
          PX None false 4).
  pose (g' := mkGameState "g"
          [Some PX; Some PX; Some PX; Some PO; Some PO; None; None; None; None]
          PX (Some PX) false 5).
  assert (run scenario_before_win ∅ !! "g"%string = Some g) as Hg.
  { vm_compute. reflexivity. }
  assert (post_move "g" 2 PX (run scenario_before_win ∅)
          = (inr g', <["g"%string := g']> (run scenario_before_win ∅))) as Hm.
  { vm_compute. reflexivity. }
  pose proof (H "g"%string 2 PX (run scenario_before_win ∅) _ g g' Hg Hm)
    as Hflip.
  vm_compute in Hflip. discriminate.
Qed.

(** C6, as stated, fails: the ninth move X:8 completes the diagonal
    (0, 4, 8), so the game ends with a winner and without the draw flag. *)
Lemma nine_moves_not_a_draw :
  ¬ (Forall (λ r, accepted r = true) (responses scenario_nine_moves ∅) ∧
     ∃ g, run scenario_nine_moves ∅ !! "g"%string = Some g ∧
          is_draw g = true ∧ winner g = None).
Proof.
  intros (_ & g & Hg & Hd & _). vm_compute in Hg.
  inversion Hg; subst g. discriminate.
Qed.

(** C6, as the code has it.  Each of the nine moves is accepted, and the
    last one ends the game with winner "X" on the diagonal (0, 4, 8),
    [is_draw] false, and all nine cells marked. *)
Theorem nine_moves_scenario :
  Forall (λ r, accepted r = true) (responses scenario_nine_moves ∅) ∧
  ∃ g, last (responses scenario_nine_moves ∅) = Some (inr g) ∧
       run scenario_nine_moves ∅ !! "g"%string = Some g ∧
       winner g = Some PX ∧ is_draw g = false ∧
       line_all (board g) (0, 4, 8) PX ∧
       moves_count g = 9 ∧ _is_draw (board g) = true.
Proof.
  split.
  - vm_compute. repeat constructor.
  - eexists. split; [vm_compute; reflexivity|].
    split; [vm_compute; reflexivity|].
    vm_compute. repeat split.
Qed.

(** C7. Resetting a stored game succeeds whatever its state, and stores
    and returns nine empty cells, "X" to play, no winner, no draw, zero
    moves, under the same identifier. *)
Theorem reset_game_fresh gid (G : Games) g :
  G !! gid = Some g → length (board g) = 9%nat →
  ∃ g', reset_game gid G = (inr g', <[gid := g']> G) ∧
        board g' = replicate 9 None ∧
        current_player g' = PX ∧
        winner g' = None ∧
        is_draw g' = false ∧
        moves_count g' = 0 ∧
        game_id g' = game_id g.
Proof.
  intros Hg Hlen. rewrite reset_game_eq, Hg.
  destruct (decide (length (board g) = 9%nat)); [|contradiction].
  eexists. split; [reflexivity|]. repeat split.
Qed.

(** C8. Creating a game succeeds for either starting mark, and stores and
    returns nine empty cells, the chosen mark to play, no winner, no draw
    and zero moves, under the identifier drawn for it. *)
Theorem create_game_fresh new_id body (G : Games) :
  ∃ g, create_game new_id body G = (inr g, <[new_id := g]> G) ∧
       game_id g = new_id ∧
       length (board g) = 9%nat ∧
       Forall (λ c, c = None) (board g) ∧
       current_player g = first_player body ∧
       winner g = None ∧
       is_draw g = false ∧
       moves_count g = 0.
Proof.
  eexists. split; [apply create_game_eq|]. simpl.
  repeat split. repeat constructor.
Qed.

(** C9, as stated, fails: position 9 is refused by the [MoveRequest] model,
    and that refusal is not answered with status 400. *)
Lemma out_of_range_is_not_a_400 :
  ¬ (∀ gid pos p (G : Games), ¬ (0 <= pos <= 8) →
       ∃ e, post_move gid pos p G = (inl e, G) ∧ response_status e = 400).
Proof.
  intros H.
  destruct (H "g"%string 9 PX (run scenario_opening ∅)) as (e & He & Hs);
    [lia|].
  rewrite post_move_invalid in He by lia.
  inversion He; subst e. discriminate.
Qed.

(** C9, as the code has it.  A position outside [0..8] is refused by the
    validation of the request body: the handler is not run (the answer does
    not depend on the dictionary, not even on the game being there), the
    dictionary is unchanged, and the failure is the request-validation
    error, answered with 422 and not with the 400 of a wrong turn or an
    occupied cell. *)
Theorem out_of_range_rejected_at_boundary gid pos p (G : Games) :
  ¬ (0 <= pos <= 8) →
  MoveRequest_validate pos p = Raise RequestValidationError ∧
  post_move gid pos p G = (inl RequestValidationError, G) ∧
  response_status RequestValidationError = 422 ∧
  (∀ detail, RequestValidationError ≠ HTTPException 400 detail).
Proof.
  intros Hpos. split; [|split; [|split]].
  - unfold MoveRequest_validate.
    destruct (decide (0 <= pos)); [|reflexivity].
    destruct (decide (pos <= 8)); [lia | reflexivity].
  - apply post_move_invalid, Hpos.
  - reflexivity.
  - discriminate.
Qed.

(** C10. For a validated move request the refusals are tried in a fixed
    order: an unknown identifier gives 404 whatever else is wrong; on a
    stored game, a terminal state gives 409 whatever the mark and the cell;
    on a running game, a mark that is not [current_player] gives the 400 of
    the wrong turn whatever the cell holds; only then does an occupied cell
    give the 400 of the occupied cell. *)
Theorem error_priority gid pos p (G : Games) :
  0 <= pos <= 8 →
  (G !! gid = None →
     post_move gid pos p G = (inl (HTTPException 404 "Game not found"), G)) ∧
  (∀ g, G !! gid = Some g → length (board g) = 9%nat →
     (terminal g = true →
        post_move gid pos p G =
          (inl (HTTPException 409 "Game has already finished"), G)) ∧
     (terminal g = false → p ≠ current_player g →
        post_move gid pos p G =
          (inl (HTTPException 400
                  ("It is not " +:+ player_str p +:+ "'s turn")), G)) ∧
     (terminal g = false → p = current_player g →
        ∀ m, board g !! Z.to_nat pos = Some (Some m) →
        post_move gid pos p G =
          (inl (HTTPException 400 "Cell already occupied"), G))).
Proof.
  intros Hpos. rewrite post_move_valid by exact Hpos. split.
  - apply make_move_not_found.
  - intros g Hg Hlen. split; [|split].
    + apply (make_move_finished gid G g Hg Hlen).
    + intros Hterm Hturn.
      exact (make_move_wrong_turn gid G g Hg Hlen (mkMoveRequest pos p)
               Hterm Hturn).
    + intros Hterm Hturn m Hcell.
      apply (make_move_occupied gid G g Hg Hlen (mkMoveRequest pos p)
               (Z.to_nat pos) m Hterm Hturn); [|exact Hcell].
      simpl. apply py_index_in_range. lia.
Qed.

(** ** The properties at concrete games *)

(** C1 at the move X:2 that completes the top row. *)
Lemma winner_set_iff_line_witness :
  post_move "g" 2 PX (run scenario_before_win ∅)
    = (inr game_won, <["g"%string := game_won]> (run scenario_before_win ∅)) ∧
  ∃ g, run scenario_before_win ∅ !! "g"%string = Some g ∧
       board game_won = <[Z.to_nat 2 := Some PX]> (board g) ∧
       <["g"%string := game_won]> (run scenario_before_win ∅) !! "g"%string
         = Some game_won ∧
       (is_Some (winner game_won) ↔ has_line (board game_won)) ∧
       (∀ m, winner game_won = Some m →
             (∃ ln, ln ∈ win_lines ∧ line_all (board game_won) ln m) ∧
             is_draw game_won = false).
Proof.
  assert (post_move "g" 2 PX (run scenario_before_win ∅)
    = (inr game_won, <["g"%string := game_won]> (run scenario_before_win ∅)))
    as Hmove.
  { vm_compute. reflexivity. }
  split; [exact Hmove|].
  exact (winner_set_iff_line "g" 2 PX _ _ game_won Hmove).
Defined.

(** C2 at the game that filled the board without a line. *)
Lemma winner_and_draw_exclusive_witness :
  run scenario_full_board ∅ !! "g"%string = Some game_drawn ∧
  ¬ (is_Some (winner game_drawn) ∧ is_draw game_drawn = true) ∧
  (is_draw game_drawn = true →
     length (board game_drawn) = 9%nat ∧
     Forall (λ c, c ≠ None) (board game_drawn) ∧
     winner game_drawn = None ∧ ¬ has_line (board game_drawn)).
Proof.
  assert (run scenario_full_board ∅ !! "g"%string = Some game_drawn) as Hg.
  { vm_compute. reflexivity. }
  split; [exact Hg|].
  exact (winner_and_draw_exclusive scenario_full_board "g" game_drawn Hg).
Defined.

(** C3 at the game won on the top row after five moves. *)
Lemma moves_count_counts_marks_witness :
  run scenario_win ∅ !! "g"%string = Some game_won ∧
  moves_count game_won = count_marks (board game_won) ∧
  0 <= moves_count game_won <= 9.
Proof.
  assert (run scenario_win ∅ !! "g"%string = Some game_won) as Hg.
  { vm_compute. reflexivity. }
  split; [exact Hg|].
  exact (moves_count_counts_marks scenario_win "g" game_won Hg).
Defined.

(** C4 at the won game: O tries the free centre-right cell. *)
Lemma failed_move_changes_nothing_witness :
  run scenario_win ∅ !! "g"%string = Some game_won ∧
  terminal game_won = true ∧
  post_move "g" 5 PO (run scenario_win ∅) =
    (inl (HTTPException 409 "Game has already finished"), run scenario_win ∅).
Proof.
  assert (run scenario_win ∅ !! "g"%string = Some game_won) as Hg.
  { vm_compute. reflexivity. }
  split; [exact Hg|]. split; [reflexivity|].
  destruct (failed_move_changes_nothing "g" 5 PO (run scenario_win ∅))
    as [_ Hterm].
  destruct (Hterm game_won Hg eq_refl eq_refl) as [_ Hpost].
  apply Hpost. lia.
Defined.

(** C5 at the opened game: the stored game is the one after X:0. *)
Lemma current_player_alternates_witness :
  run scenario_opening ∅ !! "g"%string = Some game_opened ∧
  (∀ g' G', post_move "g" 1 PO (run scenario_opening ∅) = (inr g', G') →
     G' !! "g"%string = Some g' ∧
     (terminal g' = false →
        current_player g' = other_player (current_player game_opened) ∧
        current_player g' ≠ current_player game_opened) ∧
     (terminal g' = true → current_player g' = current_player game_opened)) ∧
  (∀ e G', post_move "g" 1 PO (run scenario_opening ∅) = (inl e, G') →
     G' !! "g"%string = Some game_opened).
Proof.
  assert (run scenario_opening ∅ !! "g"%string = Some game_opened) as Hg.
  { vm_compute. reflexivity. }
  split; [exact Hg|].
  exact (current_player_alternates "g" 1 PO _ game_opened Hg).
Defined.

(** C7 at the won game. *)
Lemma reset_game_fresh_witness :
  run scenario_win ∅ !! "g"%string = Some game_won ∧
  ∃ g', reset_game "g" (run scenario_win ∅)
          = (inr g', <["g"%string := g']> (run scenario_win ∅)) ∧
        board g' = replicate 9 None ∧
        current_player g' = PX ∧
        winner g' = None ∧
        is_draw g' = false ∧
        moves_count g' = 0 ∧
        game_id g' = game_id game_won.
Proof.
  assert (run scenario_win ∅ !! "g"%string = Some game_won) as Hg.
  { vm_compute. reflexivity. }
  split; [exact Hg|].
  exact (reset_game_fresh "g" _ game_won Hg eq_refl).
Defined.

(** C9 at position 9, on a game that exists and on one that does not. *)
Lemma out_of_range_rejected_at_boundary_witness :
  ¬ (0 <= 9 <= 8) ∧
  post_move "g" 9 PO (run scenario_opening ∅)
    = (inl RequestValidationError, run scenario_opening ∅) ∧
  post_move "nobody" 9 PO (run scenario_opening ∅)
    = (inl RequestValidationError, run scenario_opening ∅).
Proof.
  assert (¬ (0 <= 9 <= 8)) as Hpos by lia.
  split; [exact Hpos|]. split.
  - exact (proj1 (proj2
      (out_of_range_rejected_at_boundary "g" 9 PO _ Hpos))).
  - exact (proj1 (proj2
      (out_of_range_rejected_at_boundary "nobody" 9 PO _ Hpos))).
Defined.

(** C10 at the opened game: X, out of turn, aims at the cell X holds. *)
Lemma error_priority_witness :
  run scenario_opening ∅ !! "g"%string = Some game_opened ∧
  board game_opened !! Z.to_nat 0 = Some (Some PX) ∧
  PX ≠ current_player game_opened ∧
  post_move "g" 0 PX (run scenario_opening ∅) =
    (inl (HTTPException 400 "It is not X's turn"), run scenario_opening ∅).
Proof.
  assert (run scenario_opening ∅ !! "g"%string = Some game_opened) as Hg.
  { vm_compute. reflexivity. }
  assert (PX ≠ current_player game_opened) as Hturn by discriminate.
  split; [exact Hg|]. split; [reflexivity|]. split; [exact Hturn|].
  destruct (error_priority "g" 0 PX (run scenario_opening ∅)) as [_ Hfound];
    [lia|].
  destruct (Hfound game_opened Hg eq_refl) as (_ & Hwrong & _).
  exact (Hwrong eq_refl Hturn).
Defined.

(** ** Further properties of the handlers *)

(** *** Which games a request touches *)

Lemma get_game_store gid (G : Games) : (get_game gid G).2 = G.
Proof.
  unfold get_game. rewrite require_game_eq.
  destruct (G !! gid) as [d|]; [|reflexivity].
  destruct (decide (length (board d) = 9%nat)); reflexivity.
Qed.

Lemma serve_other_key (r : Request) (G : Games) (k : string) :
  k ≠ request_target r → (serve r G).2 !! k = G !! k.
Proof.
  intros Hk. destruct r as [new_id body | gid | gid pos p | gid];
    cbn [serve request_target] in *.
  - rewrite create_game_eq. simpl. apply lookup_insert_ne. congruence.
  - unfold get_game. rewrite require_game_eq.
    destruct (G !! gid) as [d|]; [|reflexivity].
    destruct (decide (length (board d) = 9%nat)); reflexivity.
  - destruct (post_move gid pos p G) as [[e|g'] G'] eqn:Hm; simpl.
    + apply post_move_rejected in Hm. subst G'. reflexivity.
    + apply post_move_accepted in Hm as (_ & g & w & Hrest).
      destruct Hrest as (_ & _ & _ & _ & _ & _ & _ & _ & _ & _ & _ & _ & ->).
      apply lookup_insert_ne. congruence.
  - rewrite reset_game_eq. destruct (G !! gid) as [d|]; [|reflexivity].
    destruct (decide (length (board d) = 9%nat)); [|reflexivity].
    simpl. apply lookup_insert_ne. congruence.
Qed.

Lemma serve_keys (r : Request) (G : Games) (k : string) :
  is_Some ((serve r G).2 !! k) ↔
  is_Some (G !! k) ∨ ∃ body, r = ReqCreate k body.
Proof.
  destruct (decide (k = request_target r)) as [->|Hne].
  - destruct r as [new_id body | gid | gid pos p | gid];
      cbn [serve request_target].
    + rewrite create_game_eq. simpl. rewrite lookup_insert_eq.
      split; [intros _; right; eauto | intros _; eauto].
    + rewrite get_game_store.
      split; [auto | intros [H|[b Hb]]; [exact H | discriminate]].
    + destruct (post_move gid pos p G) as [[e|g'] G'] eqn:Hm; simpl.
      * apply post_move_rejected in Hm. subst G'.
        split; [auto | intros [H|[b Hb]]; [exact H | discriminate]].
      * apply post_move_accepted in Hm as (_ & g & w & Hg & Hrest).
        destruct Hrest as (_ & _ & _ & _ & _ & _ & _ & _ & _ & _ & _ & ->).
        rewrite lookup_insert_eq, Hg. split; eauto.
    + rewrite reset_game_eq. destruct (G !! gid) as [d|] eqn:Hd.
      * destruct (decide (length (board d) = 9%nat)); simpl.
        -- rewrite lookup_insert_eq. split; eauto.
        -- rewrite Hd. split; eauto.
      * simpl. rewrite Hd.
        split; [auto | intros [H|[b Hb]]; [exact H | discriminate]].
  - rewrite serve_other_key by exact Hne.
    split; [auto | intros [H|[b Hb]]; [exact H|]].
    subst r. exfalso. apply Hne. reflexivity.
Qed.

(** X2. A request changes no game but the one it addresses; a GET changes
    none at all. *)
Theorem request_touches_one_game (r : Request) (G : Games) :
  (∀ k, k ≠ request_target r → (serve r G).2 !! k = G !! k) ∧
  (∀ gid, (get_game gid G).2 = G).
Proof.
  split.
  - intros k. apply serve_other_key.
  - intros gid. apply get_game_store.
Qed.

(** X3. No handler deletes a game: after a sequence of requests an
    identifier is stored if and only if it was stored before or one of the
    requests created it. *)
Theorem stored_iff_created (rs : list Request) (G : Games) (k : string) :
  is_Some (run rs G !! k) ↔
  is_Some (G !! k) ∨ ∃ body, ReqCreate k body ∈ rs.
Proof.
  revert G. induction rs as [|r rs IH]; intros G; simpl.
  - split; [auto | intros [H|[b Hb]]; [exact H | inversion Hb]].
  - rewrite IH, serve_keys. split.
    + intros [[H|[b ->]]|[b Hb]].
      * left. exact H.
      * right. exists b. left.
      * right. exists b. right. exact Hb.
    + intros [H|[b Hb]].
      * left. left. exact H.
      * apply elem_of_cons in Hb as [<-|Hb]; [left; right; eauto|].
        right. eauto.
Qed.

(** *** Invariants of the stored games *)

Section RunInvariant.
(** A property of stored games that fresh boards have and accepted moves
    keep holds of every game of every reached dictionary. *)
Variable P : string → GameState → Prop.
Hypothesis P_fresh :
  ∀ id p, P id (mkGameState id (replicate 9 None) p None false 0).
Hypothesis P_reset :
  ∀ gid g, P gid g →
    P gid (mkGameState (game_id g) (replicate 9 None) PX None false 0).
Hypothesis P_move :
  ∀ gid pos p (G G' : Games) g g',
    game_ok g → P gid g → G !! gid = Some g →
    post_move gid pos p G = (inr g', G') → P gid g'.

Lemma serve_keeps_sat (r : Request) (G : Games) :
  games_ok G → (∀ gid g, G !! gid = Some g → P gid g) →
  ∀ gid g, (serve r G).2 !! gid = Some g → P gid g.
Proof.
  intros HG HP k g0. destruct (decide (k = request_target r)) as [->|Hne];
    [|rewrite serve_other_key by exact Hne; apply HP].
  destruct r as [new_id body | gid | gid pos p | gid];
    cbn [serve request_target].
  - rewrite create_game_eq. simpl. rewrite lookup_insert_eq.
    intros H. inversion H; subst g0.
    apply P_fresh.
  - rewrite get_game_store. apply HP.
  - destruct (post_move gid pos p G) as [[e|g'] G'] eqn:Hm; simpl.
    + apply post_move_rejected in Hm. subst G'. apply HP.
    + pose proof Hm as Hacc.
      apply post_move_accepted in Hacc as (_ & g & w & Hg & Hrest).
      destruct Hrest as (_ & _ & _ & _ & _ & _ & _ & _ & _ & _ & _ & ->).
      rewrite lookup_insert_eq. intros H. inversion H; subst g0.
      exact (P_move gid pos p G _ g g' (HG gid g Hg) (HP gid g Hg) Hg Hm).
  - rewrite reset_game_eq. destruct (G !! gid) as [d|] eqn:Hd.
    + destruct (decide (length (board d) = 9%nat)); simpl.
      * rewrite lookup_insert_eq. intros H. inversion H; subst g0.
        apply P_reset, (HP gid d Hd).
      * apply HP.
    + simpl. apply HP.
Qed.

Lemma run_keeps_sat (rs : list Request) (G : Games) :
  games_ok G → (∀ gid g, G !! gid = Some g → P gid g) →
  ∀ gid g, run rs G !! gid = Some g → P gid g.
Proof.
  revert G. induction rs as [|r rs IH]; intros G HG HP; simpl.
  - exact HP.
  - apply IH; [apply serve_keeps_ok, HG | apply serve_keeps_sat; assumption].
Qed.

Lemma reached_games_sat (rs : list Request) gid g :
  run rs ∅ !! gid = Some g → P gid g.
Proof.
  apply (run_keeps_sat rs ∅ empty_games_ok).
  intros k g0 H. rewrite lookup_empty in H. discriminate.
Qed.
End RunInvariant.

(** An accepted move, seen from the game it was played on. *)
Lemma post_move_step gid pos p (G G' : Games) g g' :
  G !! gid = Some g → post_move gid pos p G = (inr g', G') →
  0 <= pos <= 8 ∧
  ∃ w,
    length (board g) = 9%nat ∧ terminal g = false ∧
    p = current_player g ∧
    board g !! Z.to_nat pos = Some None ∧
    board g' = <[Z.to_nat pos := Some p]> (board g) ∧
    _calculate_winner (board g') = Ok w ∧
    game_id g' = game_id g ∧
    moves_count g' = moves_count g + 1 ∧
    winner g' = w ∧
    is_draw g' = negb (truthy w) && _is_draw (board g') ∧
    current_player g' =
      (if truthy w || _is_draw (board g') then current_player g
       else other_player (current_player g)) ∧
    G' = <[gid := g']> G.
Proof.
  intros Hg Hm. apply post_move_accepted in Hm as (Hpos & g0 & w & Hg0 & Hrest).
  rewrite Hg in Hg0. inversion Hg0; subst g0.
  split; [exact Hpos|]. exists w. exact Hrest.
Qed.

(** In every reached dictionary a game is stored under its own [game_id]. *)
Lemma reached_game_id (rs : list Request) gid g :
  run rs ∅ !! gid = Some g → game_id g = gid.
Proof.
  apply (reached_games_sat (λ k g0, game_id g0 = k)).
  - reflexivity.
  - intros k g0 H. exact H.
  - intros k pos p G G' g0 g' _ Hid Hg0 Hm.
    destruct (post_move_step _ _ _ _ _ _ _ Hg0 Hm) as (_ & w & Hrest).
    destruct Hrest as (_ & _ & _ & _ & _ & _ & Hid' & _).
    rewrite Hid'. exact Hid.
Qed.

Lemma run_snoc (rs : list Request) (r : Request) (G : Games) :
  run (rs ++ [r]) G = (serve r (run rs G)).2.
Proof.
  revert G. induction rs as [|r0 rs IH]; intros G; simpl; [reflexivity|].
  apply IH.
Qed.

(** A successful request stores what it answers with, under the identifier
    it addresses. *)
Lemma serve_response_stored (r : Request) (G G' : Games) g :
  serve r G = (inr g, G') → G' !! request_target r = Some g.
Proof.
  intros Hs. destruct r as [new_id body | gid | gid pos p | gid];
    cbn [serve request_target] in *.
  - rewrite create_game_eq in Hs. simpl in Hs. inversion Hs; subst.
    apply lookup_insert_eq.
  - unfold get_game in Hs. rewrite require_game_eq in Hs.
    destruct (G !! gid) as [d|] eqn:Hd; [|discriminate].
    destruct (decide (length (board d) = 9%nat)); [|discriminate].
    inversion Hs; subst. exact Hd.
  - apply post_move_accepted in Hs as (_ & g0 & w & Hrest).
    destruct Hrest as (_ & _ & _ & _ & _ & _ & _ & _ & _ & _ & _ & _ & ->).
    apply lookup_insert_eq.
  - rewrite reset_game_eq in Hs.
    destruct (G !! gid) as [d|] eqn:Hd; [|discriminate].
    destruct (decide (length (board d) = 9%nat)); [|discriminate].
    simpl in Hs. inversion Hs; subst. apply lookup_insert_eq.
Qed.

(** X4. On a reached dictionary every successful response carries, in its
    [game_id], the identifier the request addressed: the drawn identifier
    for a create, the one of the path for a GET, a move and a reset. *)
Theorem response_carries_request_id (rs : list Request) (r : Request)
        g (G' : Games) :
  serve r (run rs ∅) = (inr g, G') → game_id g = request_target r.
Proof.
  intros Hs. apply (reached_game_id (rs ++ [r])).
  rewrite run_snoc.
  pose proof (serve_response_stored r _ G' g Hs) as Hst.
  rewrite Hs. exact Hst.
Qed.

(** X5. In every reached dictionary the [winner] field of a game agrees
    with its board at all times: it is set if and only if one of the eight
    lines is uniform, and it is then the mark of such a line. *)
Theorem stored_winner_matches_board (rs : list Request) gid g :
  run rs ∅ !! gid = Some g →
  (is_Some (winner g) ↔ has_line (board g)) ∧
  (∀ m, winner g = Some m → ∃ ln, ln ∈ win_lines ∧ line_all (board g) ln m).
Proof.
  intros Hg.
  destruct (run_keeps_ok rs ∅ empty_games_ok gid g Hg) as [Hlen _ Hwin _].
  destruct (calculate_winner_spec (board g) Hlen) as (w & Hw & Hsome & Hnone).
  rewrite Hwin in Hw. inversion Hw; subst w. split; [split|].
  - intros [m Hm]. destruct (Hsome m Hm) as (ln & Hin & Hl).
    exists ln, m. split; assumption.
  - intros Hline. destruct (winner g) as [m|]; [eexists; reflexivity|].
    exfalso. exact (Hnone eq_refl Hline).
  - exact Hsome.
Qed.

(** X6. In every reached dictionary the draw flag of a game is raised
    exactly when its nine cells are marked and it has no winner. *)
Theorem draw_iff_full_without_winner (rs : list Request) gid g :
  run rs ∅ !! gid = Some g →
  (is_draw g = true ↔
   Forall (λ c, c ≠ None) (board g) ∧ winner g = None).
Proof.
  intros Hg.
  destruct (run_keeps_ok rs ∅ empty_games_ok gid g Hg) as [_ _ _ Hdraw].
  rewrite Hdraw, andb_true_iff, is_draw_full.
  destruct (winner g); simpl; split.
  - intros [H _]. discriminate.
  - intros [_ H]. discriminate.
  - intros [_ H]. split; [exact H | reflexivity].
  - intros [H _]. split; [reflexivity | exact H].
Qed.

(** *** Who wins, and when *)

Lemma line_through_new_mark (b : list cell) (k : nat) (p m : PLAYER)
      (ln : Z * Z * Z) :
  (k < length b)%nat →
  line_all (<[k := Some p]> b) ln m → line_all b ln m ∨ m = p.
Proof.
  intros Hk (H1 & H2 & H3).
  destruct (decide (k = Z.to_nat ln.1.1)) as [E|N1].
  { right. rewrite <- E, list_lookup_insert_eq in H1 by exact Hk. congruence. }
  destruct (decide (k = Z.to_nat ln.1.2)) as [E|N2].
  { right. rewrite <- E, list_lookup_insert_eq in H2 by exact Hk. congruence. }
  destruct (decide (k = Z.to_nat ln.2)) as [E|N3].
  { right. rewrite <- E, list_lookup_insert_eq in H3 by exact Hk. congruence. }
  left. rewrite list_lookup_insert_ne in H1, H2, H3 by assumption.
  repeat split; assumption.
Qed.

(** On a game without a line before the move, a line after it runs through
    the new mark. *)
Lemma winning_mark_is_new_mark gid pos p (G G' : Games) g g' m :
  game_ok g → G !! gid = Some g →
  post_move gid pos p G = (inr g', G') →
  winner g' = Some m → m = p ∧ current_player g' = m.
Proof.
  intros Hok Hg Hm Hwin.
  destruct (post_move_step _ _ _ _ _ _ _ Hg Hm)
    as (Hpos & w & Hlen & Hterm & Hp & Hcell & Hb & Hw & _ & _ & Hwin' & _ &
        Hcur & _).
  rewrite Hwin in Hwin'. subst w.
  assert (m = p) as ->.
  { assert (length (board g') = 9%nat) as Hlen'
      by (rewrite Hb, length_insert; exact Hlen).
    destruct (calculate_winner_spec (board g') Hlen') as (w' & Hw' & Hsome & _).
    rewrite Hw in Hw'. inversion Hw'; subst w'.
    destruct (Hsome m eq_refl) as (ln & Hin & Hl). rewrite Hb in Hl.
    apply line_through_new_mark in Hl as [Hold|E];
      [|exact E | apply lookup_lt_Some in Hcell; exact Hcell].
    exfalso.
    destruct (calculate_winner_spec (board g) Hlen) as (w0 & Hw0 & _ & Hnone).
    rewrite (ok_winner g Hok) in Hw0. inversion Hw0; subst w0.
    unfold terminal in Hterm. apply orb_false_iff in Hterm as [Ht _].
    destruct (winner g); [discriminate|].
    apply (Hnone eq_refl). exists ln, m. split; assumption. }
  split; [reflexivity|]. rewrite Hcur. simpl. symmetry. exact Hp.
Qed.

(** X7. On a reached dictionary, a move that is answered with a winner was
    made by that winner, and [current_player] of the won game still names
    them. *)
Theorem winner_is_the_mover (rs : list Request) gid pos p g' (G' : Games) m :
  post_move gid pos p (run rs ∅) = (inr g', G') →
  winner g' = Some m → m = p ∧ current_player g' = m.
Proof.
  intros Hm Hwin. pose proof Hm as Hacc.
  apply post_move_accepted in Hacc as (_ & g & w & Hg & _).
  exact (winning_mark_is_new_mark gid pos p _ G' g g' m
           (run_keeps_ok rs ∅ empty_games_ok gid g Hg) Hg Hm Hwin).
Qed.

Lemma reached_winner_is_current (rs : list Request) gid g m :
  run rs ∅ !! gid = Some g → winner g = Some m → current_player g = m.
Proof.
  intros Hg. revert m. revert gid g Hg.
  apply (reached_games_sat
           (λ _ g0, ∀ m, winner g0 = Some m → current_player g0 = m)).
  - intros id p m. discriminate.
  - intros k g0 _ m. discriminate.
  - intros k pos p G G' g0 g' Hok _ Hg0 Hm m Hwin.
    exact (proj2 (winning_mark_is_new_mark k pos p G G' g0 g' m
                    Hok Hg0 Hm Hwin)).
Qed.

(** *** Counting the marks of each player *)

Lemma count_mark_nonneg (q : PLAYER) (b : list cell) : 0 <= count_mark q b.
Proof. unfold count_mark. lia. Qed.

Lemma count_mark_place (q p : PLAYER) (b : list cell) (k : nat) :
  b !! k = Some None →
  count_mark q (<[k := Some p]> b) =
  count_mark q b + (if decide (q = p) then 1 else 0).
Proof.
  unfold count_mark. revert k. induction b as [|c b IH]; intros k Hk.
  - discriminate.
  - destruct k as [|k]; simpl in Hk.
    + inversion Hk; subst c. simpl. rewrite !filter_cons.
      destruct (decide (None = Some q)); [discriminate|].
      destruct (decide (Some p = Some q)) as [E|N];
        destruct (decide (q = p)) as [E'|N']; simpl; try lia; congruence.
    + simpl. rewrite !filter_cons. specialize (IH k Hk).
      destruct (decide (c = Some q)); simpl; lia.
Qed.

(** Clearing a cell that holds [q] takes one off the count of [q]. *)
Lemma count_mark_clear (q : PLAYER) (b : list cell) (k : nat) :
  b !! k = Some (Some q) →
  count_mark q b = count_mark q (<[k := None]> b) + 1.
Proof.
  unfold count_mark. revert k. induction b as [|c b IH]; intros k Hk.
  - discriminate.
  - destruct k as [|k]; simpl in Hk.
    + inversion Hk; subst c. simpl. rewrite !filter_cons.
      destruct (decide (None = Some q)); [discriminate|].
      destruct (decide (Some q = Some q)); [|contradiction]. simpl. lia.
    + simpl. rewrite !filter_cons. specialize (IH k Hk).
      destruct (decide (c = Some q)); simpl; lia.
Qed.

Lemma count_marks_split (b : list cell) :
  count_marks b = count_mark PX b + count_mark PO b.
Proof.
  unfold count_marks, count_mark. induction b as [|c b IH]; [reflexivity|].
  rewrite !filter_cons.
  destruct c as [[|]|]; simpl;
    repeat match goal with
           | |- context [decide ?P] => destruct (decide P); try discriminate;
                                       try contradiction
           end; simpl; lia.
Qed.

Lemma other_player_involutive (p : PLAYER) :
  other_player (other_player p) = p.
Proof. destruct p; reflexivity. Qed.

Lemma other_player_neq (p : PLAYER) : other_player p ≠ p.
Proof. destruct p; discriminate. Qed.

(** The turn invariant: while the game runs, the player to move has as many
    marks as the other or one less; once it is over, the player who moved
    last has as many as the other or one more. *)
Lemma reached_turn_balance (rs : list Request) gid g :
  run rs ∅ !! gid = Some g →
  let d := count_mark (current_player g) (board g)
           - count_mark (other_player (current_player g)) (board g) in
  if terminal g then 0 <= d <= 1 else -1 <= d <= 0.
Proof.
  revert gid g.
  apply (reached_games_sat
    (λ _ g0,
       let d := count_mark (current_player g0) (board g0)
                - count_mark (other_player (current_player g0)) (board g0) in
       if terminal g0 then 0 <= d <= 1 else -1 <= d <= 0)).
  - intros id p. destruct p; vm_compute; split; discriminate.
  - intros k g0 _. vm_compute; split; discriminate.
  - intros k pos p G G' g0 g' _ Hbal Hg0 Hm.
    destruct (post_move_step _ _ _ _ _ _ _ Hg0 Hm)
      as (_ & w & _ & Hterm & Hp & Hcell & Hb & _ & _ & _ & Hwin & Hdraw &
          Hcur & _).
    cbv zeta in *. rewrite Hterm in Hbal. subst p.
    assert (terminal g' = truthy w || _is_draw (board g')) as Ht.
    { unfold terminal. rewrite Hwin, Hdraw. destruct (truthy w); reflexivity. }
    rewrite Ht, Hcur.
    pose proof (count_mark_place (current_player g0) (current_player g0)
                  (board g0) _ Hcell) as Hsame.
    pose proof (count_mark_place (other_player (current_player g0))
                  (current_player g0) (board g0) _ Hcell) as Hoth.
    destruct (decide (current_player g0 = current_player g0));
      [|contradiction].
    destruct (decide (other_player (current_player g0) = current_player g0))
      as [E|_]; [exfalso; exact (other_player_neq _ E)|].
    rewrite <- Hb in Hsame, Hoth.
    destruct (truthy w || _is_draw (board g')).
    + rewrite Hsame, Hoth. lia.
    + rewrite other_player_involutive, Hsame, Hoth. lia.
Qed.

(** X8. In every reached dictionary the two players' marks on a board
    differ by at most one. *)
Theorem marks_balanced (rs : list Request) gid g :
  run rs ∅ !! gid = Some g →
  -1 <= count_mark PX (board g) - count_mark PO (board g) <= 1.
Proof.
  intros Hg. pose proof (reached_turn_balance rs gid g Hg) as H.
  cbv zeta in H.
  destruct (terminal g); destruct (current_player g);
    change (other_player PX) with PO in H;
    change (other_player PO) with PX in H; lia.
Qed.

Lemma three_cells_three_marks (b : list cell) (i j k : nat) (m : PLAYER) :
  i ≠ j → i ≠ k → j ≠ k →
  b !! i = Some (Some m) → b !! j = Some (Some m) → b !! k = Some (Some m) →
  3 <= count_mark m b.
Proof.
  intros Hij Hik Hjk Hi Hj Hk.
  rewrite (count_mark_clear m b i Hi).
  assert (<[i := None]> b !! j = Some (Some m)) as Hj'
    by (rewrite list_lookup_insert_ne by exact Hij; exact Hj).
  rewrite (count_mark_clear m _ j Hj').
  assert (<[j := None]> (<[i := None]> b) !! k = Some (Some m)) as Hk'
    by (rewrite !list_lookup_insert_ne by assumption; exact Hk).
  rewrite (count_mark_clear m _ k Hk').
  pose proof (count_mark_nonneg m
    (<[k := None]> (<[j := None]> (<[i := None]> b)))). lia.
Qed.

Lemma line_has_three_marks (b : list cell) (ln : Z * Z * Z) (m : PLAYER) :
  ln ∈ win_lines → line_all b ln m → 3 <= count_mark m b.
Proof.
  intros Hin (H1 & H2 & H3). unfold win_lines in Hin.
  repeat (apply elem_of_cons in Hin as [->|Hin]);
    [..|inversion Hin]; simpl in H1, H2, H3;
    (eapply three_cells_three_marks; [| | |exact H1|exact H2|exact H3]; lia).
Qed.

(** X9. In every reached dictionary a game with a winner has seen at least
    five moves: three marks of the winner on a line and, by the turn order,
    at least two of the other player. *)
Theorem no_win_before_fifth_move (rs : list Request) gid g :
  run rs ∅ !! gid = Some g → is_Some (winner g) → 5 <= moves_count g.
Proof.
  intros Hg [m Hm].
  destruct (run_keeps_ok rs ∅ empty_games_ok gid g Hg)
    as [Hlen Hcount Hwin _].
  destruct (calculate_winner_spec (board g) Hlen) as (w & Hw & Hsome & _).
  rewrite Hwin, Hm in Hw. inversion Hw; subst w.
  destruct (Hsome m eq_refl) as (ln & Hin & Hl).
  pose proof (line_has_three_marks _ _ _ Hin Hl) as H3.
  pose proof (reached_winner_is_current rs gid g m Hg Hm) as Hcur.
  pose proof (reached_turn_balance rs gid g Hg) as Hbal. cbv zeta in Hbal.
  unfold terminal in Hbal. rewrite Hm in Hbal. simpl in Hbal.
  rewrite Hcur in Hbal. rewrite Hcount, count_marks_split.
  destruct m; change (other_player PX) with PO in Hbal;
    change (other_player PO) with PX in Hbal; lia.
Qed.

(** *** Acceptance *)

Lemma make_move_accepts gid (G : Games) g body k :
  G !! gid = Some g → length (board g) = 9%nat →
  terminal g = false → player body = current_player g →
  py_index (board g) (position body) = Some k →
  board g !! k = Some None →
  ∃ g', make_move body gid G = (inr g', <[gid := g']> G) ∧
        board g' = <[k := Some (player body)]> (board g).
Proof.
  intros Hg Hlen Hterm Hturn Hk Hcell.
  unfold make_move. unfold hbind at 1.
  rewrite (require_game_stored gid G g Hg Hlen).
  unfold terminal in Hterm. rewrite Hterm.
  rewrite bool_decide_eq_true_2 by exact Hturn. run_handler.
  unfold getitem. rewrite Hk, Hcell. simpl.
  rewrite (setitem_total _ _ k) by exact Hk. simpl.
  assert (length (<[k := Some (player body)]> (board g)) = 9%nat) as Hlen'
    by (rewrite length_insert; exact Hlen).
  destruct (calculate_winner_spec _ Hlen') as (w & Hw & _).
  rewrite Hw. simpl. eexists. split; [reflexivity|].
  destruct (truthy w); simpl; [reflexivity|].
  destruct (_is_draw (<[k:=Some (player body)]> (board g))); reflexivity.
Qed.

(** X10. A move that passes the four checks is accepted: on a stored
    nine-cell game that is not over, the player to move, aiming at an empty
    cell in [0..8], gets the updated game back, stored under the same
    identifier, with the mark in that cell. *)
Theorem legal_move_accepted gid pos p (G : Games) g :
  G !! gid = Some g → length (board g) = 9%nat →
  terminal g = false → p = current_player g →
  0 <= pos <= 8 → board g !! Z.to_nat pos = Some None →
  ∃ g', post_move gid pos p G = (inr g', <[gid := g']> G) ∧
        board g' = <[Z.to_nat pos := Some p]> (board g) ∧
        board g' !! Z.to_nat pos = Some (Some p).
Proof.
  intros Hg Hlen Hterm Hp Hpos Hcell.
  rewrite post_move_valid by exact Hpos.
  destruct (make_move_accepts gid G g (mkMoveRequest pos p) (Z.to_nat pos)
              Hg Hlen Hterm Hp) as (g' & Hm & Hb).
  - simpl. apply py_index_in_range. lia.
  - exact Hcell.
  - exists g'. split; [exact Hm|]. simpl in Hb. split; [exact Hb|].
    rewrite Hb. apply list_lookup_insert_eq.
    apply lookup_lt_Some in Hcell. exact Hcell.
Qed.

Lemma not_full_has_empty_cell (b : list cell) :
  _is_draw b = false → ∃ k, b !! k = Some None.
Proof.
  unfold _is_draw. induction b as [|c b IH]; simpl; [discriminate|].
  destruct c as [m|]; simpl.
  - intros H. destruct (IH H) as (k & Hk). exists (S k). exact Hk.
  - intros _. exists 0%nat. reflexivity.
Qed.

(** X11. A game of a reached dictionary that is not over can go on: there
    is a cell in [0..8] at which the move of the player to move is
    accepted. *)
Theorem running_game_has_a_move (rs : list Request) gid g :
  run rs ∅ !! gid = Some g → terminal g = false →
  ∃ pos g', 0 <= pos <= 8 ∧
            post_move gid pos (current_player g) (run rs ∅)
              = (inr g', <[gid := g']> (run rs ∅)).
Proof.
  intros Hg Hterm.
  destruct (run_keeps_ok rs ∅ empty_games_ok gid g Hg) as [Hlen _ _ Hdraw].
  pose proof Hterm as Hterm'. unfold terminal in Hterm'.
  apply orb_false_iff in Hterm' as [Hw Hd].
  rewrite Hd, Hw in Hdraw. simpl in Hdraw. symmetry in Hdraw.
  destruct (not_full_has_empty_cell _ Hdraw) as (k & Hk).
  assert (k < 9)%nat as Hk9
    by (rewrite <- Hlen; apply lookup_lt_Some in Hk; exact Hk).
  destruct (make_move_accepts gid (run rs ∅) g
              (mkMoveRequest (Z.of_nat k) (current_player g)) k
              Hg Hlen Hterm eq_refl) as (g' & Hm & _).
  - simpl. rewrite py_index_in_range by lia. rewrite Nat2Z.id. reflexivity.
  - exact Hk.
  - exists (Z.of_nat k), g'. split; [lia|].
    rewrite post_move_valid by lia. exact Hm.
Qed.

(** *** Failures *)

Lemma serve_client_error (r : Request) (G : Games) e :
  games_ok G → (serve r G).1 = inl e → client_error e = true.
Proof.
  intros HG. destruct r as [new_id body | gid | gid pos p | gid];
    cbn [serve].
  - rewrite create_game_eq. discriminate.
  - unfold get_game. rewrite require_game_eq.
    destruct (G !! gid) as [d|] eqn:Hd.
    + destruct (decide (length (board d) = 9%nat)) as [|Hn];
        [discriminate|]. exfalso. exact (Hn (ok_len d (HG gid d Hd))).
    + simpl. intros H. inversion H. reflexivity.
  - destruct (decide (0 <= pos <= 8)) as [Hpos|Hpos];
      [|rewrite post_move_invalid by exact Hpos; simpl;
        intros H; inversion H; reflexivity].
    rewrite post_move_valid by exact Hpos.
    destruct (G !! gid) as [g|] eqn:Hg;
      [|rewrite make_move_not_found by exact Hg; simpl;
        intros H; inversion H; reflexivity].
    pose proof (ok_len g (HG gid g Hg)) as Hlen.
    destruct (terminal g) eqn:Hterm;
      [rewrite (make_move_finished gid G g Hg Hlen _ Hterm); simpl;
       intros H; inversion H; reflexivity|].
    destruct (decide (p = current_player g)) as [Hp|Hp];
      [|rewrite (make_move_wrong_turn gid G g Hg Hlen
                   (mkMoveRequest pos p) Hterm Hp); simpl;
        intros H; inversion H; reflexivity].
    assert (py_index (board g) pos = Some (Z.to_nat pos)) as Hk
      by (apply py_index_in_range; lia).
    destruct (lookup_lt_is_Some_2 (board g) (Z.to_nat pos)) as [c Hc]; [lia|].
    destruct c as [m|].
    + rewrite (make_move_occupied gid G g Hg Hlen (mkMoveRequest pos p)
                 (Z.to_nat pos) m Hterm Hp Hk Hc). simpl.
      intros H; inversion H; reflexivity.
    + destruct (make_move_accepts gid G g (mkMoveRequest pos p)
                  (Z.to_nat pos) Hg Hlen Hterm Hp Hk Hc) as (g' & Hm & _).
      rewrite Hm. discriminate.
  - rewrite reset_game_eq. destruct (G !! gid) as [d|] eqn:Hd.
    + destruct (decide (length (board d) = 9%nat)) as [|Hn];
        [discriminate|]. exfalso. exact (Hn (ok_len d (HG gid d Hd))).
    + simpl. intros H. inversion H. reflexivity.
Qed.

Lemma responses_client_errors (rs : list Request) (G : Games) :
  games_ok G →
  Forall (λ resp, ∀ e, resp = inl e → client_error e = true)
         (responses rs G).
Proof.
  revert G. induction rs as [|r rs IH]; intros G HG; simpl.
  - constructor.
  - constructor.
    + intros e He. exact (serve_client_error r G e HG He).
    + apply IH, serve_keeps_ok, HG.
Qed.

(** X12. Served from an empty dictionary, no sequence of requests makes a
    handler fail on its own: every response is a success, one of the
    handlers' 400, 404 or 409, or the refusal of a request body; a subscript
    out of range or a stored board refused by [validate_board_len] never
    occurs. *)
Theorem no_internal_error (rs : list Request) :
  Forall (λ resp, ∀ e, resp = inl e →
                       client_error e = true ∧
                       e ≠ IndexError ∧ e ≠ ValidationError)
         (responses rs ∅).
Proof.
  eapply Forall_impl; [apply responses_client_errors, empty_games_ok|].
  intros resp H e He. specialize (H e He).
  split; [exact H|]. split; intros ->; discriminate.
Qed.

(** *** Reading back *)

Lemma require_game_ok gid (G : Games) g :
  G !! gid = Some g → game_ok g → get_game gid G = (inr g, G).
Proof.
  intros Hg Hok. unfold get_game.
  exact (require_game_stored gid G g Hg (ok_len g Hok)).
Qed.

(** X1. On a reached dictionary, what a successful request answers with is
    what a GET of the same identifier returns next, and that GET changes
    nothing. *)
Theorem response_is_what_get_returns (rs : list Request) (r : Request)
        g (G' : Games) :
  serve r (run rs ∅) = (inr g, G') →
  get_game (request_target r) G' = (inr g, G').
Proof.
  intros Hs.
  pose proof (run_keeps_ok rs ∅ empty_games_ok) as HG.
  apply require_game_ok.
  - exact (serve_response_stored r _ G' g Hs).
  - exact (serve_response_ok r _ G' g HG Hs).
Qed.

(** *** Missing games and restarts *)

(** X13. An identifier that is not stored is answered with 404 "Game not
    found" by GET, by reset and by every move with a position in [0..8],
    whatever the mark, and the dictionary is unchanged. *)
Theorem missing_game_not_found gid (G : Games) :
  G !! gid = None →
  get_game gid G = (inl (HTTPException 404 "Game not found"), G) ∧
  reset_game gid G = (inl (HTTPException 404 "Game not found"), G) ∧
  (∀ pos p, 0 <= pos <= 8 →
     post_move gid pos p G = (inl (HTTPException 404 "Game not found"), G)).
Proof.
  intros Hnone. split; [|split].
  - unfold get_game. rewrite require_game_eq, Hnone. reflexivity.
  - rewrite reset_game_eq, Hnone. reflexivity.
  - intros pos p Hpos. rewrite post_move_valid by exact Hpos.
    apply make_move_not_found, Hnone.
Qed.

(** X14. Resetting twice is resetting once: the second reset answers with
    the same state and leaves the dictionary of the first, whatever the
    dictionary held. *)
Theorem reset_game_idempotent gid (G : Games) :
  reset_game gid (reset_game gid G).2 =
  ((reset_game gid G).1, (reset_game gid G).2).
Proof.
  rewrite (reset_game_eq gid G).
  destruct (G !! gid) as [d|] eqn:Hd; simpl.
  - destruct (decide (length (board d) = 9%nat)) as [Hlen|Hlen]; simpl.
    + rewrite reset_game_eq, lookup_insert_eq. simpl.
      rewrite insert_insert_eq. reflexivity.
    + rewrite reset_game_eq, Hd.
      destruct (decide (length (board d) = 9%nat)); [contradiction|].
      reflexivity.
  - rewrite reset_game_eq, Hd. reflexivity.
Qed.

(** X15. On a reached dictionary, resetting a stored game is the same as
    creating a game with the default first player under its identifier:
    same response, same dictionary. *)
Theorem reset_is_create_with_default (rs : list Request) gid g :
  run rs ∅ !! gid = Some g →
  reset_game gid (run rs ∅) =
  create_game gid CreateGameRequest_default (run rs ∅).
Proof.
  intros Hg. rewrite reset_game_eq, create_game_eq, Hg.
  destruct (run_keeps_ok rs ∅ empty_games_ok gid g Hg) as [Hlen _ _ _].
  destruct (decide (length (board g) = 9%nat)); [|contradiction].
  rewrite (reached_game_id rs gid g Hg). reflexivity.
Qed.

(** *** What only a restart undoes *)

(** A request that does not restart [gid] keeps its marks where they are
    and does not lower its move counter; it leaves a finished game as it
    is. *)
Lemma serve_keeps_marks (r : Request) (G : Games) gid g :
  restarts gid r = false → G !! gid = Some g →
  ∃ g', (serve r G).2 !! gid = Some g' ∧
        (∀ j m, board g !! j = Some (Some m) → board g' !! j = Some (Some m)) ∧
        moves_count g <= moves_count g' ∧
        (terminal g = true → g' = g).
Proof.
  intros Hr Hg.
  assert ((serve r G).2 !! gid = Some g →
          ∃ g', (serve r G).2 !! gid = Some g' ∧
                (∀ j m, board g !! j = Some (Some m) →
                        board g' !! j = Some (Some m)) ∧
                moves_count g <= moves_count g' ∧
                (terminal g = true → g' = g)) as Hsame.
  { intros H. exists g. split; [exact H|]. split; [auto|]. split; [lia|auto]. }
  destruct (decide (gid = request_target r)) as [Ht|Hne];
    [|apply Hsame; rewrite serve_other_key by exact Hne; exact Hg].
  destruct r as [new_id body | gid0 | gid0 pos p | gid0];
    cbn [serve request_target restarts] in *.
  - subst. rewrite bool_decide_eq_true_2 in Hr by reflexivity. discriminate.
  - apply Hsame. rewrite get_game_store. exact Hg.
  - subst gid0. destruct (post_move gid pos p G) as [[e|g'] G'] eqn:Hm; simpl.
    + apply Hsame. simpl. apply post_move_rejected in Hm. subst G'. exact Hg.
    + destruct (post_move_step _ _ _ _ _ _ _ Hg Hm)
        as (_ & w & _ & Hterm & _ & Hcell & Hb & _ & _ & Hmc & _ & _ & _ & ->).
      exists g'. split; [apply lookup_insert_eq|]. split; [|split].
      * intros j m Hj. rewrite Hb.
        rewrite list_lookup_insert_ne; [exact Hj|]. congruence.
      * lia.
      * congruence.
  - subst. rewrite bool_decide_eq_true_2 in Hr by reflexivity. discriminate.
Qed.

(** X16. Without a reset of the game (or a create drawing its identifier),
    no sequence of requests removes or changes a mark of a stored game or
    lowers its [moves_count]. *)
Theorem marks_stay_until_restart (rs : list Request) (G : Games) gid g :
  Forall (λ r, restarts gid r = false) rs → G !! gid = Some g →
  ∃ g', run rs G !! gid = Some g' ∧
        (∀ j m, board g !! j = Some (Some m) → board g' !! j = Some (Some m)) ∧
        moves_count g <= moves_count g'.
Proof.
  intros Hrs. revert G g. induction Hrs as [|r rs Hr _ IH]; intros G g Hg.
  - exists g. simpl. split; [exact Hg|]. split; [auto | lia].
  - destruct (serve_keeps_marks r G gid g Hr Hg) as (g1 & Hg1 & Hm1 & Hc1 & _).
    destruct (IH _ g1 Hg1) as (g' & Hg' & Hm' & Hc').
    exists g'. simpl. split; [exact Hg'|]. split; [auto | lia].
Qed.

(** X17. A finished game stays exactly as it is, whatever requests follow,
    until it is reset (or a create draws its identifier). *)
Theorem finished_game_frozen (rs : list Request) (G : Games) gid g :
  Forall (λ r, restarts gid r = false) rs →
  G !! gid = Some g → terminal g = true →
  run rs G !! gid = Some g.
Proof.
  intros Hrs. revert G. induction Hrs as [|r rs Hr _ IH]; intros G Hg Hterm.
  - exact Hg.
  - simpl. apply IH; [|exact Hterm].
    destruct (serve_keeps_marks r G gid g Hr Hg) as (g1 & Hg1 & _ & _ & Heq).
    rewrite (Heq Hterm) in Hg1. exact Hg1.
Qed.

(** *** The scan of the lines on its own *)

(** X18. On any board of nine cells [_calculate_winner] raises nothing; it
    returns a mark exactly when one of the eight lines is uniform, and the
    mark it returns is the mark of such a line. *)
Theorem calculate_winner_nine_cells (b : list cell) :
  length b = 9%nat →
  ∃ w, _calculate_winner b = Ok w ∧
       (is_Some w ↔ has_line b) ∧
       (∀ m, w = Some m → ∃ ln, ln ∈ win_lines ∧ line_all b ln m).
Proof.
  intros Hlen.
  destruct (calculate_winner_spec b Hlen) as (w & Hw & Hsome & Hnone).
  exists w. split; [exact Hw|]. split; [split|exact Hsome].
  - intros [m ->]. destruct (Hsome m eq_refl) as (ln & Hin & Hl).
    exists ln, m. split; assumption.
  - intros Hline. destruct w as [m|]; [eexists; reflexivity|].
    exfalso. exact (Hnone eq_refl Hline).
Qed.

(** X19. A stored record whose board does not have nine cells is refused by
    the board validator when it is read back: GET, reset and every move with
    a position in [0..8] fail with the validation error and leave the
    dictionary unchanged. *)
Theorem malformed_board_refused gid (G : Games) d :
  G !! gid = Some d → length (board d) ≠ 9%nat →
  get_game gid G = (inl ValidationError, G) ∧
  reset_game gid G = (inl ValidationError, G) ∧
  (∀ pos p, 0 <= pos <= 8 →
     post_move gid pos p G = (inl ValidationError, G)).
Proof.
  intros Hd Hlen. split; [|split].
  - unfold get_game. rewrite require_game_eq, Hd.
    destruct (decide (length (board d) = 9%nat)); [contradiction|reflexivity].
  - rewrite reset_game_eq, Hd.
    destruct (decide (length (board d) = 9%nat)); [contradiction|reflexivity].
  - intros pos p Hpos. rewrite post_move_valid by exact Hpos.
    unfold make_move. unfold hbind at 1. rewrite require_game_eq, Hd.
    destruct (decide (length (board d) = 9%nat)); [contradiction|reflexivity].
Qed.

(** ** The further properties at concrete games *)

(** X1 at the move that wins the top row. *)
Lemma response_is_what_get_returns_witness :
  serve (ReqMove "g" 2 PX) (run scenario_before_win ∅)
    = (inr game_won, <["g"%string := game_won]> (run scenario_before_win ∅)) ∧
  get_game "g" (<["g"%string := game_won]> (run scenario_before_win ∅))
    = (inr game_won, <["g"%string := game_won]> (run scenario_before_win ∅)).
Proof.
  assert (serve (ReqMove "g" 2 PX) (run scenario_before_win ∅)
    = (inr game_won, <["g"%string := game_won]> (run scenario_before_win ∅)))
    as Hs.
  { vm_compute. reflexivity. }
  split; [exact Hs|].
  exact (response_is_what_get_returns scenario_before_win
           (ReqMove "g" 2 PX) game_won _ Hs).
Defined.

(** X2 at a move on "g" beside the game "h". *)
Lemma request_touches_one_game_witness :
  "h"%string ≠ request_target (ReqMove "g" 1 PO) ∧
  run scenario_two_games ∅ !! "h"%string = Some game_h ∧
  (serve (ReqMove "g" 1 PO) (run scenario_two_games ∅)).2 !! "h"%string
    = run scenario_two_games ∅ !! "h"%string.
Proof.
  assert ("h"%string ≠ request_target (ReqMove "g" 1 PO)) as Hne
    by discriminate.
  split; [exact Hne|]. split; [vm_compute; reflexivity|].
  exact (proj1 (request_touches_one_game (ReqMove "g" 1 PO)
                  (run scenario_two_games ∅)) "h"%string Hne).
Defined.

(** X4 at the same move. *)
Lemma response_carries_request_id_witness :
  serve (ReqMove "g" 2 PX) (run scenario_before_win ∅)
    = (inr game_won, <["g"%string := game_won]> (run scenario_before_win ∅)) ∧
  game_id game_won = request_target (ReqMove "g" 2 PX).
Proof.
  assert (serve (ReqMove "g" 2 PX) (run scenario_before_win ∅)
    = (inr game_won, <["g"%string := game_won]> (run scenario_before_win ∅)))
    as Hs.
  { vm_compute. reflexivity. }
  split; [exact Hs|].
  exact (response_carries_request_id scenario_before_win
           (ReqMove "g" 2 PX) game_won _ Hs).
Defined.

(** X5 at the won game. *)
Lemma stored_winner_matches_board_witness :
  run scenario_win ∅ !! "g"%string = Some game_won ∧
  (is_Some (winner game_won) ↔ has_line (board game_won)) ∧
  (∀ m, winner game_won = Some m →
        ∃ ln, ln ∈ win_lines ∧ line_all (board game_won) ln m).
Proof.
  assert (run scenario_win ∅ !! "g"%string = Some game_won) as Hg.
  { vm_compute. reflexivity. }
  split; [exact Hg|].
  exact (stored_winner_matches_board scenario_win "g" game_won Hg).
Defined.

(** X6 at the drawn game. *)
Lemma draw_iff_full_without_winner_witness :
  run scenario_full_board ∅ !! "g"%string = Some game_drawn ∧
  (is_draw game_drawn = true ↔
   Forall (λ c, c ≠ None) (board game_drawn) ∧ winner game_drawn = None).
Proof.
  assert (run scenario_full_board ∅ !! "g"%string = Some game_drawn) as Hg.
  { vm_compute. reflexivity. }
  split; [exact Hg|].
  exact (draw_iff_full_without_winner scenario_full_board "g" game_drawn Hg).
Defined.

(** X7 at the move that wins the top row. *)
Lemma winner_is_the_mover_witness :
  post_move "g" 2 PX (run scenario_before_win ∅)
    = (inr game_won, <["g"%string := game_won]> (run scenario_before_win ∅)) ∧
  winner game_won = Some PX ∧
  PX = PX ∧ current_player game_won = PX.
Proof.
  assert (post_move "g" 2 PX (run scenario_before_win ∅)
    = (inr game_won, <["g"%string := game_won]> (run scenario_before_win ∅)))
    as Hm.
  { vm_compute. reflexivity. }
  split; [exact Hm|]. split; [reflexivity|].
  exact (winner_is_the_mover scenario_before_win "g" 2 PX game_won _ PX
           Hm eq_refl).
Defined.

(** X8 at the won game: three marks of X, two of O. *)
Lemma marks_balanced_witness :
  run scenario_win ∅ !! "g"%string = Some game_won ∧
  -1 <= count_mark PX (board game_won) - count_mark PO (board game_won) <= 1.
Proof.
  assert (run scenario_win ∅ !! "g"%string = Some game_won) as Hg.
  { vm_compute. reflexivity. }
  split; [exact Hg|].
  exact (marks_balanced scenario_win "g" game_won Hg).
Defined.

(** X9 at the won game: it took five moves. *)
Lemma no_win_before_fifth_move_witness :
  run scenario_win ∅ !! "g"%string = Some game_won ∧
  is_Some (winner game_won) ∧ 5 <= moves_count game_won.
Proof.
  assert (run scenario_win ∅ !! "g"%string = Some game_won) as Hg.
  { vm_compute. reflexivity. }
  assert (is_Some (winner game_won)) as Hw by (eexists; reflexivity).
  split; [exact Hg|]. split; [exact Hw|].
  exact (no_win_before_fifth_move scenario_win "g" game_won Hg Hw).
Defined.

(** X10 at the opened game: O answers in the centre. *)
Lemma legal_move_accepted_witness :
  run scenario_opening ∅ !! "g"%string = Some game_opened ∧
  ∃ g', post_move "g" 4 PO (run scenario_opening ∅)
          = (inr g', <["g"%string := g']> (run scenario_opening ∅)) ∧
        board g' = <[Z.to_nat 4 := Some PO]> (board game_opened) ∧
        board g' !! Z.to_nat 4 = Some (Some PO).
Proof.
  assert (run scenario_opening ∅ !! "g"%string = Some game_opened) as Hg.
  { vm_compute. reflexivity. }
  split; [exact Hg|].
  apply (legal_move_accepted "g" 4 PO _ game_opened Hg);
    [reflexivity | reflexivity | reflexivity | lia | reflexivity].
Defined.

(** X11 at the opened game. *)
Lemma running_game_has_a_move_witness :
  run scenario_opening ∅ !! "g"%string = Some game_opened ∧
  terminal game_opened = false ∧
  ∃ pos g', 0 <= pos <= 8 ∧
            post_move "g" pos (current_player game_opened)
                      (run scenario_opening ∅)
              = (inr g', <["g"%string := g']> (run scenario_opening ∅)).
Proof.
  assert (run scenario_opening ∅ !! "g"%string = Some game_opened) as Hg.
  { vm_compute. reflexivity. }
  split; [exact Hg|]. split; [reflexivity|].
  exact (running_game_has_a_move scenario_opening "g" game_opened Hg eq_refl).
Defined.

(** X13 at an identifier nobody created. *)
Lemma missing_game_not_found_witness :
  run scenario_opening ∅ !! "nobody"%string = None ∧
  get_game "nobody" (run scenario_opening ∅)
    = (inl (HTTPException 404 "Game not found"), run scenario_opening ∅).
Proof.
  assert (run scenario_opening ∅ !! "nobody"%string = None) as Hn.
  { vm_compute. reflexivity. }
  split; [exact Hn|].
  exact (proj1 (missing_game_not_found "nobody" _ Hn)).
Defined.

(** X15 at the won game. *)
Lemma reset_is_create_with_default_witness :
  run scenario_win ∅ !! "g"%string = Some game_won ∧
  reset_game "g" (run scenario_win ∅) =
  create_game "g" CreateGameRequest_default (run scenario_win ∅).
Proof.
  assert (run scenario_win ∅ !! "g"%string = Some game_won) as Hg.
  { vm_compute. reflexivity. }
  split; [exact Hg|].
  exact (reset_is_create_with_default scenario_win "g" game_won Hg).
Defined.

(** X16 at the opened game, followed by two moves and a GET. *)
Lemma marks_stay_until_restart_witness :
  run scenario_opening ∅ !! "g"%string = Some game_opened ∧
  ∃ g', run [ReqMove "g" 4 PO; ReqGet "g"; ReqMove "g" 8 PX]
            (run scenario_opening ∅) !! "g"%string = Some g' ∧
        (∀ j m, board game_opened !! j = Some (Some m) →
                board g' !! j = Some (Some m)) ∧
        moves_count game_opened <= moves_count g'.
Proof.
  assert (run scenario_opening ∅ !! "g"%string = Some game_opened) as Hg.
  { vm_compute. reflexivity. }
  split; [exact Hg|].
  apply (marks_stay_until_restart _ _ "g" game_opened); [|exact Hg].
  repeat constructor.
Defined.

(** X17 at the won game, followed by moves of both players and a GET. *)
Lemma finished_game_frozen_witness :
  run scenario_win ∅ !! "g"%string = Some game_won ∧
  terminal game_won = true ∧
  run [ReqMove "g" 5 PO; ReqMove "g" 5 PX; ReqGet "g"]
      (run scenario_win ∅) !! "g"%string = Some game_won.
Proof.
  assert (run scenario_win ∅ !! "g"%string = Some game_won) as Hg.
  { vm_compute. reflexivity. }
  split; [exact Hg|]. split; [reflexivity|].
  apply (finished_game_frozen _ _ "g" game_won); [|exact Hg|reflexivity].
  repeat constructor.
Defined.

(** X18 at the board of the won game. *)
Lemma calculate_winner_nine_cells_witness :
  length (board game_won) = 9%nat ∧
  ∃ w, _calculate_winner (board game_won) = Ok w ∧
       (is_Some w ↔ has_line (board game_won)) ∧
       (∀ m, w = Some m → ∃ ln, ln ∈ win_lines ∧ line_all (board game_won) ln m).
Proof.
  split; [reflexivity|].
  exact (calculate_winner_nine_cells (board game_won) eq_refl).
Defined.

(** X19 at a dictionary holding a three-cell record. *)
Lemma malformed_board_refused_witness :
  ({[ "bad"%string := game_malformed ]} : Games) !! "bad"%string
    = Some game_malformed ∧
  length (board game_malformed) ≠ 9%nat ∧
  get_game "bad" ({[ "bad"%string := game_malformed ]} : Games)
    = (inl ValidationError, {[ "bad"%string := game_malformed ]}).
Proof.
  assert (({[ "bad"%string := game_malformed ]} : Games) !! "bad"%string
            = Some game_malformed) as Hd.
  { vm_compute. reflexivity. }
  assert (length (board game_malformed) ≠ 9%nat) as Hlen by (simpl; lia).
  split; [exact Hd|]. split; [exact Hlen|].
  exact (proj1 (malformed_board_refused "bad" _ game_malformed Hd Hlen)).
Defined.
